(** * TrafficFlow ETL: the star-schema pipeline of [etl_pipeline.py]

    A shallow embedding of the transformation code of the pipeline: the
    timestamp normalisation, the four dimension builders and the fact
    builder, together with the few pandas and [random] operations they call.

    Data frames are lists of rows (records); a cell that pandas shows as
    NaN / NaT / None is [None].  Where the code depends on the index labels
    of a frame (the road-condition lookup), the labels are carried along
    explicitly.  Exceptions are values of [result]; the global random
    generator and the SQL engine are threaded as explicit state.  Logging has
    no influence on any computed value and is left out. *)

From Stdlib Require Import ZArith Lia.
From stdpp Require Import base option list sorting strings gmap.

Local Open Scope Z_scope.

(* stdpp's solvers clear hypotheses by name; Rocq 9.3 warns when one is gone. *)
#[local] Set Warnings "-clear-no-such-hyp".

(** ** Cells, timestamps and calendar dates *)

(** A pandas [Timestamp] is a count of nanoseconds since 1970-01-01T00:00;
    a [datetime.date] is a count of days since 1970-01-01. *)
Definition Timestamp : Type := Z.
Definition date : Type := Z.

(** A non-null cell value as it comes out of a spreadsheet. *)
Inductive Scalar :=
  | Str (s : string)
  | Int (z : Z)
  | Stamp (t : Timestamp).

Definition Cell : Type := option Scalar.

Global Instance Scalar_eq_dec : EqDecision Scalar.
Proof. solve_decision. Defined.

Definition ns_per_day : Z := 86400 * 1000000000.

(** [Series.dt.date] on one timestamp. *)
Definition dt_date (t : Timestamp) : date := t `div` ns_per_day.

(** [pd.to_datetime] on one [datetime.date]: that day at 00:00. *)
Definition date_to_datetime (d : date) : Timestamp := d * ns_per_day.

(** The proleptic Gregorian calendar: year, month and day of a day count. *)
Definition civil_from_days (d : date) : Z * Z * Z :=
  let z := d + 719468 in
  let era := z `div` 146097 in
  let doe := z - era * 146097 in
  let yoe := (doe - doe `div` 1460 + doe `div` 36524 - doe `div` 146096) `div` 365 in
  let doy := doe - (365 * yoe + yoe `div` 4 - yoe `div` 100) in
  let mp := (5 * doy + 2) `div` 153 in
  let day := doy - (153 * mp + 2) `div` 5 + 1 in
  let month := if decide (mp < 10) then mp + 3 else mp - 9 in
  let year := yoe + era * 400 + (if decide (month ≤ 2) then 1 else 0) in
  (year, month, day).

Definition date_year (d : date) : Z := (civil_from_days d).1.1.
Definition date_month (d : date) : Z := (civil_from_days d).1.2.

(** [Series.dt.month] and [Series.dt.year] on one timestamp. *)
Definition dt_month (t : Timestamp) : Z := date_month (dt_date t).
Definition dt_year (t : Timestamp) : Z := date_year (dt_date t).

(** ** Exceptions *)

(** The exceptions met in the transformation code: those of Python and
    pandas, and SQLAlchemy's [OperationalError]. *)
Inductive exception :=
  | KeyError
  | IndexError
  | ValueError
  | OverflowError
  | OperationalError.

Inductive result (A : Type) :=
  | Ok (a : A)
  | Raise (e : exception).
Arguments Ok {A} a.
Arguments Raise {A} e.

Definition and_then {A B} (r : result A) (k : A → result B) : result B :=
  match r with
  | Ok a => k a
  | Raise e => Raise e
  end.

(** ** The pandas operations the pipeline calls *)

Module pd.

(** [Series.unique] and [Series.drop_duplicates] (keep='first'): one pass
    over the values with a table of the values already seen.  Null is a
    value like any other and is kept once. *)
Fixpoint unique_from `{EqDecision A} (seen l : list A) : list A :=
  match l with
  | [] => []
  | x :: l' =>
      if decide (x ∈ seen) then unique_from seen l'
      else x :: unique_from (x :: seen) l'
  end.

Definition unique `{EqDecision A} (l : list A) : list A := unique_from [] l.

Definition drop_duplicates `{EqDecision A} (l : list A) : list A := unique l.

(** [range(a, b)]. *)
Definition range (a b : Z) : list Z := seqZ a (b - a).

(** [left.merge(right, left_on=.., right_on=.., how='left')]: every left
    row in order, once per right row with an equal key (a null key equals
    a null key), or once with an empty right side. *)
Definition merge_left {L R K} `{EqDecision K}
    (left_on : L → K) (right_on : R → K)
    (left : list L) (right : list R) : list (L * option R) :=
  left ≫= λ l,
    match filter (λ r, right_on r = left_on l) right with
    | [] => [(l, None)]
    | rs => (λ r, (l, Some r)) <$> rs
    end.

(** The first non-null entry of a column ([GroupBy.first] on one column of
    one group); null when every entry is null. *)
Fixpoint first_valid {A} (col : list (option A)) : option A :=
  match col with
  | [] => None
  | Some v :: _ => Some v
  | None :: col' => first_valid col'
  end.

(** The group keys of [groupby(key)]: the distinct non-null key values in
    ascending order. *)
Fixpoint insert_key (k : Z) (ks : list Z) : list Z :=
  match ks with
  | [] => [k]
  | k' :: ks' =>
      if decide (k < k') then k :: ks
      else if decide (k = k') then ks
      else k' :: insert_key k ks'
  end.

Definition group_keys (col : list (option Z)) : list Z :=
  foldr insert_key [] (omap id col).

(** A frame with its index labels; [read_excel] labels the rows 0, 1, 2... *)
Definition labelled {A} (rows : list A) : list (nat * A) := imap pair rows.

(** [Series.idxmin]: the label of the first smallest non-null entry.  On a
    series without any non-null entry pandas either raises ValueError or
    returns NaN, on which the [iloc] that follows raises; both ways the
    caller is left by an exception, which is what this case returns. *)
Fixpoint idxmin_from (best : nat * Z) (s : list (nat * option Z)) : nat :=
  match s with
  | [] => best.1
  | (i, Some v) :: s' =>
      if decide (v < best.2) then idxmin_from (i, v) s' else idxmin_from best s'
  | (_, None) :: s' => idxmin_from best s'
  end.

Fixpoint idxmin (s : list (nat * option Z)) : result nat :=
  match s with
  | [] => Raise ValueError
  | (i, Some v) :: s' => Ok (idxmin_from (i, v) s')
  | (_, None) :: s' => idxmin s'
  end.

(** [df.iloc[pos]]: the row at a position, whatever its label. *)
Definition iloc {A} (df : list (nat * A)) (pos : nat) : result A :=
  match df !! pos with
  | Some (_, row) => Ok row
  | None => Raise IndexError
  end.

(** [Series - Timestamp] on a datetime column.  pandas subtracts the int64
    counts of nanoseconds with an overflow check: a difference that is no
    int64, or that is the least int64 (the value that stands for NaT),
    raises OverflowError.  The difference of NaT is NaT. *)
Definition is_timedelta (d : Z) : Prop := - 2 ^ 63 < d < 2 ^ 63.

Definition sub_fits (t : Timestamp) (x : nat * option Timestamp) : Prop :=
  match x.2 with
  | Some v => is_timedelta (v - t)
  | None => True
  end.

Global Instance sub_fits_dec t x : Decision (sub_fits t x).
Proof. unfold sub_fits, is_timedelta. destruct (x.2); apply _. Defined.

Definition sub (s : list (nat * option Timestamp)) (t : Timestamp)
    : result (list (nat * option Z)) :=
  if decide (Forall (sub_fits t) s)
  then Ok ((λ x, (x.1, option_map (λ v, v - t) x.2)) <$> s)
  else Raise OverflowError.

(** [Series.abs] on a timedelta column. *)
Definition abs (s : list (nat * option Z)) : list (nat * option Z) :=
  (λ x, (x.1, option_map Z.abs x.2)) <$> s.

(** [pd.to_datetime(col, errors=...)].  pandas does not read a value on its
    own: it infers the format of the dates from the column and reads every
    value of the column with it, so the timestamp a value yields, and
    whether it yields one, depends on the column the value stands in.  The
    parser is pandas' own and is a parameter here; it is given the column
    next to the value.  A null stays null (NaT). *)
Inductive errors_mode := errors_raise | errors_coerce.

Section to_datetime.
Variable parse_datetime : list Cell → Scalar → option Timestamp.

Definition to_datetime_cell (col : list Cell) (errors : errors_mode) (c : Cell)
    : result (option Timestamp) :=
  match c with
  | None => Ok None
  | Some v =>
      match parse_datetime col v, errors with
      | Some t, _ => Ok (Some t)
      | None, errors_coerce => Ok None
      | None, errors_raise => Raise ValueError
      end
  end.

(** The cells of the column [col], one after the other. *)
Fixpoint to_datetime_cells (col cells : list Cell) (errors : errors_mode)
    : result (list (option Timestamp)) :=
  match cells with
  | [] => Ok []
  | c :: cells' =>
      match to_datetime_cell col errors c with
      | Raise e => Raise e
      | Ok t =>
          match to_datetime_cells col cells' errors with
          | Raise e => Raise e
          | Ok ts => Ok (t :: ts)
          end
      end
  end.

Definition to_datetime (col : list Cell) (errors : errors_mode)
    : result (list (option Timestamp)) :=
  to_datetime_cells col col errors.
End to_datetime.

End pd.

(** ** Timestamp normalisation *)

(** A frame as it is loaded from a sheet: its columns by name. *)
Abbreviation DataFrame := (gmap string (list Cell)).

(** Lines 72-79.  [df[column]] raises [KeyError] for a column the frame does
    not have; the handler logs and raises again. *)
Definition convert_timestamps
    (parse_datetime : list Cell → Scalar → option Timestamp)
    (df : DataFrame) (column : string) : result DataFrame :=
  match df !! column with
  | None => Raise KeyError
  | Some col =>
      match pd.to_datetime parse_datetime col pd.errors_coerce with
      | Raise e => Raise e
      | Ok ts => Ok (<[column := fmap Stamp <$> ts]> df)
      end
  end.

(** ** Source batches and warehouse tables *)

Record AccidentRecord := {
  AccidentID : option Z;
  ReportedAt : option Timestamp;
  Location : option string;
  VehiclesInvolved : option Z;
  Severity : Cell
}.

Record VehicleRecord := {
  v_VehicleID : option Z;
  v_VehicleType : option string
}.

Record RoadConditionRecord := {
  ConditionID : option Z;
  rc_Location : option string;
  RecordedAt : option Timestamp;
  Surface : option string;
  Visibility : option string
}.

Record DimLocation := {
  LocationID : Z;
  LocationName : option string
}.

Record DimVehicle := {
  dv_VehicleID : Z;
  dv_VehicleType : string
}.

Record DimRoadCondition := {
  dr_ConditionID : Z;
  dr_Surface : string;
  dr_Visibility : string
}.

Record DimDate := {
  DateID : Z;
  Date : option date;
  Month : option Z;
  Year : option Z;
  Time : option Timestamp
}.

Record FactAccident := {
  f_AccidentID : Z;
  f_DateID : option Z;
  f_LocationID : option Z;
  f_VehicleID : Z;
  f_RoadConditionID : option Z;
  f_VehiclesInvolved : option Z;
  f_SeverityScore : Z
}.

(** The SQLite database behind the engine: the five tables of the schema. *)
Record Engine := {
  Dim_Location : list DimLocation;
  Dim_Vehicle : list DimVehicle;
  Dim_RoadCondition : list DimRoadCondition;
  Dim_Date : list DimDate;
  Fact_Accidents : list FactAccident
}.

(** [df.to_sql(table, engine, if_exists='replace')], one per table. *)
Definition to_sql_Dim_Location (df : list DimLocation) (e : Engine) : Engine :=
  {| Dim_Location := df; Dim_Vehicle := Dim_Vehicle e;
     Dim_RoadCondition := Dim_RoadCondition e; Dim_Date := Dim_Date e;
     Fact_Accidents := Fact_Accidents e |}.

Definition to_sql_Dim_Vehicle (df : list DimVehicle) (e : Engine) : Engine :=
  {| Dim_Location := Dim_Location e; Dim_Vehicle := df;
     Dim_RoadCondition := Dim_RoadCondition e; Dim_Date := Dim_Date e;
     Fact_Accidents := Fact_Accidents e |}.

Definition to_sql_Dim_RoadCondition (df : list DimRoadCondition) (e : Engine) : Engine :=
  {| Dim_Location := Dim_Location e; Dim_Vehicle := Dim_Vehicle e;
     Dim_RoadCondition := df; Dim_Date := Dim_Date e;
     Fact_Accidents := Fact_Accidents e |}.

Definition to_sql_Dim_Date (df : list DimDate) (e : Engine) : Engine :=
  {| Dim_Location := Dim_Location e; Dim_Vehicle := Dim_Vehicle e;
     Dim_RoadCondition := Dim_RoadCondition e; Dim_Date := df;
     Fact_Accidents := Fact_Accidents e |}.

Definition to_sql_Fact_Accidents (df : list FactAccident) (e : Engine) : Engine :=
  {| Dim_Location := Dim_Location e; Dim_Vehicle := Dim_Vehicle e;
     Dim_RoadCondition := Dim_RoadCondition e; Dim_Date := Dim_Date e;
     Fact_Accidents := df |}.

(** pandas holds a column of integers as int64.  A column with a value
    beyond int64 is not such a column (it is an unsigned one), and [to_sql]
    refuses it with ValueError before it writes anything. *)
Definition int64 (z : Z) : Prop := - 2 ^ 63 ≤ z < 2 ^ 63.

Global Instance int64_dec z : Decision (int64 z).
Proof. unfold int64. apply _. Defined.

Definition to_sql_integer_column (column : list Z) : result () :=
  if decide (Forall int64 column) then Ok () else Raise ValueError.

(** ** Dimension builders *)

(** The frame built at lines 174-177: the ids [range(1, n + 1)] next to the
    [n] unique locations. *)
Definition dim_location_df (accidents_df : list AccidentRecord) : list DimLocation :=
  let locations := pd.unique (Location <$> accidents_df) in
  zip_with Build_DimLocation
    (pd.range 1 (Z.of_nat (length locations) + 1)) locations.

Definition populate_dim_location (accidents_df : list AccidentRecord) (engine : Engine)
    : result (list DimLocation * Engine) :=
  let df := dim_location_df accidents_df in
  Ok (df, to_sql_Dim_Location df engine).

(** [vehicles_df[['VehicleID', 'VehicleType']].dropna()] *)
Definition dim_vehicle_df (vehicles_df : list VehicleRecord) : list DimVehicle :=
  omap (λ r, id ← v_VehicleID r; ty ← v_VehicleType r;
             Some (Build_DimVehicle id ty)) vehicles_df.

(** Lines 202-206.  Selecting columns and dropping rows leave the VehicleID
    column of the type it has in the batch, which is the type [to_sql]
    sees. *)
Definition populate_dim_vehicle (vehicles_df : list VehicleRecord) (engine : Engine)
    : result (list DimVehicle * Engine) :=
  let df := dim_vehicle_df vehicles_df in
  and_then (to_sql_integer_column (omap v_VehicleID vehicles_df)) (λ _,
  Ok (df, to_sql_Dim_Vehicle df engine)).

(** [road_conditions_df[['ConditionID', 'Surface', 'Visibility']].dropna()] *)
Definition dim_road_condition_df (road_conditions_df : list RoadConditionRecord)
    : list DimRoadCondition :=
  omap (λ r, id ← ConditionID r; s ← Surface r; v ← Visibility r;
             Some (Build_DimRoadCondition id s v)) road_conditions_df.

(** Lines 227-231, with the ConditionID column as [to_sql] sees it. *)
Definition populate_dim_road_condition
    (road_conditions_df : list RoadConditionRecord) (engine : Engine)
    : result (list DimRoadCondition * Engine) :=
  let df := dim_road_condition_df road_conditions_df in
  and_then (to_sql_integer_column (omap ConditionID road_conditions_df)) (λ _,
  Ok (df, to_sql_Dim_RoadCondition df engine)).

(** One row of the frame built at lines 256-262. *)
Definition dim_date_row (DateID : Z) (unique_date : option date)
    (unique_date_dt : option Timestamp) : DimDate :=
  {| DateID := DateID;
     Date := unique_date;
     Month := option_map dt_month unique_date_dt;
     Year := option_map dt_year unique_date_dt;
     Time := unique_date_dt |}.

(** Lines 253-262.  [unique_dates] holds [datetime.date] values;
    [unique_dates_dt] is those dates converted back to timestamps, and it is
    this series that fills Month, Year and Time. *)
Definition dim_date_df (accidents_df : list AccidentRecord) : list DimDate :=
  let unique_dates : list (option date) :=
    pd.drop_duplicates ((λ r, option_map dt_date (ReportedAt r)) <$> accidents_df) in
  let unique_dates_dt : list (option Timestamp) :=
    option_map date_to_datetime <$> unique_dates in
  zip_with (λ DateID '(date, dt), dim_date_row DateID date dt)
    (pd.range 1 (Z.of_nat (length unique_dates) + 1))
    (zip unique_dates unique_dates_dt).

Definition populate_dim_date (accidents_df : list AccidentRecord) (engine : Engine)
    : result (list DimDate * Engine) :=
  let df := dim_date_df accidents_df in
  Ok (df, to_sql_Dim_Date df engine).

(** ** The random generator *)

(** The state of Python's global generator: the raw outcomes it is going to
    produce, and how many of them have been consumed. *)
Record Random := {
  outcomes : nat → Z;
  drawn : nat
}.

(** Computations that draw random numbers and may raise. *)
Definition M (A : Type) : Type := Random → result (A * Random).

Definition ret {A} (a : A) : M A := λ g, Ok (a, g).

Definition bind {A B} (m : M A) (k : A → M B) : M B :=
  λ g, match m g with
       | Ok (a, g') => k a g'
       | Raise e => Raise e
       end.

Definition lift {A} (r : result A) : M A :=
  λ g, match r with
       | Ok a => Ok (a, g)
       | Raise e => Raise e
       end.

Notation "'let*' x := m 'in' k" := (bind m (λ x, k))
  (at level 10, x name, m at level 100, k at level 200).

Module random.

(** [random.randint(a, b)]: [a + randbelow(b - a + 1)], where the draw
    below [n] is any value of [0 .. n-1]. *)
Definition randbelow (n : Z) : M Z :=
  λ g, Ok (outcomes g (drawn g) `mod` n,
           {| outcomes := outcomes g; drawn := S (drawn g) |}).

Definition randint (a b : Z) : M Z :=
  let* r := randbelow (b - a + 1) in ret (a + r).

End random.

(** ** Fact builder *)

(** [severity_map = {'Minor': 1, 'Moderate': 2, 'Severe': 3}] *)
Definition severity_map : gmap string Z :=
  <["Minor" := 1]> (<["Moderate" := 2]> (<["Severe" := 3]> ∅)).

(** [d.get(key, dflt)] for a dictionary with string keys: a key that is not
    a string, or is null, is never found. *)
Definition dict_get (d : gmap string Z) (key : Cell) (dflt : Z) : Z :=
  match key with
  | Some (Str s) => default dflt (d !! s)
  | _ => dflt
  end.

(** The accidents frame with its added [ReportedAt_Date] column (line 296). *)
Definition AccidentRow : Type := AccidentRecord * option date.

(** After the merge with [dim_date_df[['DateID', 'Date']]] (lines 298-303)
    and after the merge with [dim_location_df[['LocationID', 'LocationName']]]
    (lines 310-315). *)
Definition AccidentWithDate : Type := AccidentRow * option (Z * option date).
Definition AccidentWithLocation : Type :=
  AccidentWithDate * option (Z * option string).

Definition accidents_with_date
    (accidents_df : list AccidentRecord) (dim_date_df : list DimDate)
    : list AccidentWithDate :=
  let accidents_df' : list AccidentRow :=
    (λ r, (r, option_map dt_date (ReportedAt r))) <$> accidents_df in
  pd.merge_left (λ l : AccidentRow, l.2) (λ r : Z * option date, r.2)
    accidents_df' ((λ d, (DateID d, Date d)) <$> dim_date_df).

Definition accidents_with_location
    (accidents_with_date : list AccidentWithDate)
    (dim_location_df : list DimLocation) : list AccidentWithLocation :=
  pd.merge_left (λ l : AccidentWithDate, Location l.1.1)
    (λ r : Z * option string, r.2)
    accidents_with_date ((λ d, (LocationID d, LocationName d)) <$> dim_location_df).

(** The columns of the merged frame. *)
Definition col_accident (x : AccidentWithLocation) : AccidentRecord := x.1.1.1.
Definition col_ReportedAt_Date (x : AccidentWithLocation) : option date := x.1.1.2.
Definition col_DateID (x : AccidentWithLocation) : option Z := fst <$> x.1.2.
Definition col_Date (x : AccidentWithLocation) : option date := x.1.2 ≫= snd.
Definition col_LocationID (x : AccidentWithLocation) : option Z := fst <$> x.2.
Definition col_LocationName (x : AccidentWithLocation) : option string := x.2 ≫= snd.

(** A row of [groupby('AccidentID').first().reset_index()]. *)
Record GroupedRow := {
  g_AccidentID : Z;
  g_ReportedAt : option Timestamp;
  g_Location : option string;
  g_VehiclesInvolved : option Z;
  g_Severity : Cell;
  g_ReportedAt_Date : option date;
  g_DateID : option Z;
  g_Date : option date;
  g_LocationID : option Z;
  g_LocationName : option string
}.

(** [GroupBy.first] on one column of one group. *)
Definition first {A} (group : list AccidentWithLocation)
    (col : AccidentWithLocation → option A) : option A :=
  pd.first_valid (col <$> group).

(** Line 318: one row per group key, in ascending key order; every column
    holds the first non-null entry of that column within the group. *)
Definition groupby_AccidentID_first (df : list AccidentWithLocation)
    : list GroupedRow :=
  (λ k,
     let group := filter (λ x, AccidentID (col_accident x) = Some k) df in
     {| g_AccidentID := k;
        g_ReportedAt := first group (λ x, ReportedAt (col_accident x));
        g_Location := first group (λ x, Location (col_accident x));
        g_VehiclesInvolved := first group (λ x, VehiclesInvolved (col_accident x));
        g_Severity := first group (λ x, Severity (col_accident x));
        g_ReportedAt_Date := first group col_ReportedAt_Date;
        g_DateID := first group col_DateID;
        g_Date := first group col_Date;
        g_LocationID := first group col_LocationID;
        g_LocationName := first group col_LocationName |})
  <$> pd.group_keys ((λ x, AccidentID (col_accident x)) <$> df).

(** Line 337: boolean indexing keeps the labels of the selected rows. *)
Definition matching_conditions
    (road_conditions_df : list RoadConditionRecord) (accident_location : string)
    : list (nat * RoadConditionRecord) :=
  filter (λ c, rc_Location c.2 = Some accident_location)
    (pd.labelled road_conditions_df).

(** Line 340: [(matching_conditions['RecordedAt'] - reported_at).abs()] *)
Definition time_diffs (matching : list (nat * RoadConditionRecord))
    (reported_at : Timestamp) : result (list (nat * option Z)) :=
  and_then (pd.sub ((λ c, (c.1, RecordedAt c.2)) <$> matching) reported_at) (λ diffs,
  Ok (pd.abs diffs)).

(** Lines 337-346. *)
Definition road_condition_id
    (road_conditions_df : list RoadConditionRecord)
    (accident_location : string) (reported_at : Timestamp) : M (option Z) :=
  let matching := matching_conditions road_conditions_df accident_location in
  if decide (matching ≠ []) then
    let* time_diffs := lift (time_diffs matching reported_at) in
    let* label := lift (pd.idxmin time_diffs) in
    let* closest_match := lift (pd.iloc matching label) in
    ret (ConditionID closest_match)
  else
    let* r := random.randint 1 100 in ret (Some r).

(** The body of the loop of lines 322-361: [None] for a skipped row. *)
Definition fact_row (road_conditions_df : list RoadConditionRecord)
    (row : GroupedRow) : M (option FactAccident) :=
  match g_ReportedAt row, g_Location row with
  | Some reported_at, Some accident_location =>
      let date_id := g_DateID row in
      let location_id := g_LocationID row in
      let* vehicle_id := random.randint 1 200 in
      let* road_condition_id :=
        road_condition_id road_conditions_df accident_location reported_at in
      let severity_score := dict_get severity_map (g_Severity row) 1 in
      ret (Some {| f_AccidentID := g_AccidentID row;
                   f_DateID := date_id;
                   f_LocationID := location_id;
                   f_VehicleID := vehicle_id;
                   f_RoadConditionID := road_condition_id;
                   f_VehiclesInvolved := g_VehiclesInvolved row;
                   f_SeverityScore := severity_score |})
  | _, _ => ret None
  end.

Fixpoint iterrows (road_conditions_df : list RoadConditionRecord)
    (rows : list GroupedRow) (fact_accidents_data : list FactAccident)
    : M (list FactAccident) :=
  match rows with
  | [] => ret fact_accidents_data
  | row :: rows' =>
      let* emitted := fact_row road_conditions_df row in
      iterrows road_conditions_df rows'
        (match emitted with
         | Some fact => fact_accidents_data ++ [fact]
         | None => fact_accidents_data
         end)
  end.

(** The rows the loop iterates over. *)
Definition grouped_accidents (accidents_df : list AccidentRecord)
    (dim_location_df : list DimLocation) (dim_date_df : list DimDate)
    : list GroupedRow :=
  groupby_AccidentID_first
    (accidents_with_location
       (accidents_with_date accidents_df dim_date_df) dim_location_df).

(** Lines 287-369.  An exception of the loop leaves the function before
    [to_sql].  When the loop has emitted no row, [pd.DataFrame([])] is a
    frame without columns, and [to_sql] fails on it: the table it asks
    SQLite to create has no column, which SQLAlchemy reports as
    OperationalError (the table that was there is dropped by then; an
    outcome [Raise] does not describe the database).  The handler logs and
    raises again. *)
Definition populate_fact_accidents
    (accidents_df : list AccidentRecord) (dim_location_df : list DimLocation)
    (dim_date_df : list DimDate) (road_conditions_df : list RoadConditionRecord)
    (engine : Engine) : M Engine :=
  let* fact_accidents_data :=
    iterrows road_conditions_df
      (grouped_accidents accidents_df dim_location_df dim_date_df) [] in
  match fact_accidents_data with
  | [] => lift (Raise OperationalError)
  | _ :: _ => ret (to_sql_Fact_Accidents fact_accidents_data engine)
  end.

(** ** The driver's dimension step *)

Record Dimensions := {
  dim_location : list DimLocation;
  dim_vehicle : list DimVehicle;
  dim_road_condition : list DimRoadCondition;
  dim_date : list DimDate
}.

(** Step 5 of [run_etl_pipeline] (lines 433-436). *)
Definition populate_dimensions
    (vehicles_df : list VehicleRecord) (accidents_df : list AccidentRecord)
    (road_conditions_df : list RoadConditionRecord) (engine : Engine)
    : result (Dimensions * Engine) :=
  and_then (populate_dim_location accidents_df engine) (λ '(dim_location_df, engine),
  and_then (populate_dim_vehicle vehicles_df engine) (λ '(dim_vehicle_df, engine),
  and_then (populate_dim_road_condition road_conditions_df engine) (λ '(dim_road_condition_df, engine),
  and_then (populate_dim_date accidents_df engine) (λ '(dim_date_df, engine),
  Ok ({| dim_location := dim_location_df; dim_vehicle := dim_vehicle_df;
         dim_road_condition := dim_road_condition_df; dim_date := dim_date_df |},
      engine))))).

(** Steps 5 and 6 of [run_etl_pipeline] (lines 433-439): the dimensions are
    built, and the fact builder gets the location and date frames that the
    builders returned. *)
Definition populate_tables
    (vehicles_df : list VehicleRecord) (accidents_df : list AccidentRecord)
    (road_conditions_df : list RoadConditionRecord) (engine : Engine)
    : M Engine :=
  let* dimensions :=
    lift (populate_dimensions vehicles_df accidents_df road_conditions_df engine) in
  populate_fact_accidents accidents_df
    (dim_location dimensions.1) (dim_date dimensions.1)
    road_conditions_df dimensions.2.

(** ** What the specification asks of the fact builder *)

(** The first record of the batch, in input order, with a given AccidentID. *)
Definition first_occurrence (accidents_df : list AccidentRecord) (id : Z)
    : option AccidentRecord :=
  snd <$> list_find (λ r, AccidentID r = Some id) accidents_df.

(** The first timestamp of the batch, in input order, that falls on a given
    calendar date. *)
Definition first_observed (accidents_df : list AccidentRecord) (d : date)
    : option Timestamp :=
  pd.first_valid
    ((λ r, t ← ReportedAt r; if decide (dt_date t = d) then Some t else None)
     <$> accidents_df).

(** The nearest same-location reading in the specification's words: among
    the records of the location, one whose distance to [reported_at] is
    minimal, the first of them when several are. *)
Fixpoint nearest_from (reported_at : Timestamp)
    (best : RoadConditionRecord * Z) (rest : list RoadConditionRecord)
    : RoadConditionRecord :=
  match rest with
  | [] => best.1
  | c :: rest' =>
      match RecordedAt c with
      | Some t =>
          if decide (Z.abs (t - reported_at) < best.2)
          then nearest_from reported_at (c, Z.abs (t - reported_at)) rest'
          else nearest_from reported_at best rest'
      | None => nearest_from reported_at best rest'
      end
  end.

Fixpoint nearest_condition (same_location : list RoadConditionRecord)
    (reported_at : Timestamp) : option RoadConditionRecord :=
  match same_location with
  | [] => None
  | c :: rest =>
      match RecordedAt c with
      | Some t => Some (nearest_from reported_at (c, Z.abs (t - reported_at)) rest)
      | None => nearest_condition rest reported_at
      end
  end.

Definition same_location (road_conditions_df : list RoadConditionRecord)
    (accident_location : string) : list RoadConditionRecord :=
  filter (λ c, rc_Location c = Some accident_location) road_conditions_df.

(** The distances of the readings of a frame to [reported_at], as the
    subtraction of line 340 gives them when it does not overflow. *)
Definition abs_diffs (matching : list (nat * RoadConditionRecord))
    (reported_at : Timestamp) : list (nat * option Z) :=
  (λ c, (c.1, option_map (λ t, Z.abs (t - reported_at)) (RecordedAt c.2)))
  <$> matching.

(** ** What the loop emits *)

(** The rows of the grouped frame that the loop does not skip. *)
Definition survives (row : GroupedRow) : Prop :=
  is_Some (g_ReportedAt row) ∧ is_Some (g_Location row).

Global Instance survives_dec row : Decision (survives row).
Proof. unfold survives. apply _. Defined.

(** No reading of the batch was taken at the location. *)
Definition no_reading_at (road_conditions_df : list RoadConditionRecord)
    (accident_location : string) : Prop :=
  Forall (λ c, rc_Location c ≠ Some accident_location) road_conditions_df.

(** How an emitted fact row relates to the grouped row it was built from. *)
Record emitted_for (road_conditions_df : list RoadConditionRecord)
    (row : GroupedRow) (fact : FactAccident) : Prop := {
  emitted_AccidentID : f_AccidentID fact = g_AccidentID row;
  emitted_DateID : f_DateID fact = g_DateID row;
  emitted_LocationID : f_LocationID fact = g_LocationID row;
  emitted_VehiclesInvolved : f_VehiclesInvolved fact = g_VehiclesInvolved row;
  emitted_SeverityScore :
    f_SeverityScore fact = dict_get severity_map (g_Severity row) 1;
  emitted_VehicleID : 1 ≤ f_VehicleID fact ≤ 200;
  emitted_fallback :
    ∀ accident_location,
      g_Location row = Some accident_location →
      no_reading_at road_conditions_df accident_location →
      ∃ r, f_RoadConditionID fact = Some r ∧ 1 ≤ r ≤ 100
}.

(** A grouped row with another Severity. *)
Definition with_Severity (row : GroupedRow) (severity : Cell) : GroupedRow :=
  {| g_AccidentID := g_AccidentID row;
     g_ReportedAt := g_ReportedAt row;
     g_Location := g_Location row;
     g_VehiclesInvolved := g_VehiclesInvolved row;
     g_Severity := severity;
     g_ReportedAt_Date := g_ReportedAt_Date row;
     g_DateID := g_DateID row;
     g_Date := g_Date row;
     g_LocationID := g_LocationID row;
     g_LocationName := g_LocationName row |}.

(** ** Loading the workbook *)

(** An Excel file: its sheets by name. *)
Abbreviation Workbook := (gmap string DataFrame).

(** What [pd.ExcelFile] raises for a path that exists and is no workbook it
    can open: a directory, a file whose format it cannot determine, a
    damaged workbook. *)
Inductive ExcelFile_exception :=
  | IsADirectoryError
  | ValueError_format_cannot_be_determined
  | BadZipFile.

(** What is at a path of the file system: a workbook that [pd.ExcelFile]
    opens, or something for which it raises. *)
Inductive Path :=
  | is_workbook (excel_data : Workbook)
  | no_workbook (e : ExcelFile_exception).

Abbreviation FileSystem := (gmap string Path).

(** What [load_excel_file] can raise: [FileNotFoundError], the exception of
    [pd.ExcelFile] at line 42, the [ValueError] of line 46 with the missing
    sheets, and the [ValueError] of [pd.read_excel] for a sheet the workbook
    does not have. *)
Inductive load_exception :=
  | FileNotFoundError (file_path : string)
  | ExcelFile_raised (e : ExcelFile_exception)
  | ValueError_missing_sheets (missing_sheets : list string)
  | ValueError_worksheet_not_found (sheet : string).

Inductive loaded (A : Type) :=
  | Loaded (a : A)
  | LoadError (e : load_exception).
Arguments Loaded {A} a.
Arguments LoadError {A} e.

(** [pd.read_excel(file_path, sheet_name=sheet)] on the opened workbook. *)
Definition read_excel (excel_data : Workbook) (sheet : string) : loaded DataFrame :=
  match excel_data !! sheet with
  | Some df => Loaded df
  | None => LoadError (ValueError_worksheet_not_found sheet)
  end.

(** The dict comprehension of line 49, sheet after sheet. *)
Fixpoint read_sheets (excel_data : Workbook) (sheets : list string)
    (data : gmap string DataFrame) : loaded (gmap string DataFrame) :=
  match sheets with
  | [] => Loaded data
  | sheet :: sheets' =>
      match read_excel excel_data sheet with
      | Loaded df => read_sheets excel_data sheets' (<[sheet := df]> data)
      | LoadError e => LoadError e
      end
  end.

(** Lines 35-54; the handler logs the exception and raises it again. *)
Definition load_excel_file (fs : FileSystem) (file_path : string)
    (required_sheets : list string) : loaded (gmap string DataFrame) :=
  match fs !! file_path with
  | None => LoadError (FileNotFoundError file_path)
  | Some (no_workbook e) => LoadError (ExcelFile_raised e)
  | Some (is_workbook excel_data) =>
      let missing_sheets :=
        filter (λ sheet, excel_data !! sheet = None) required_sheets in
      if decide (missing_sheets ≠ []) then
        LoadError (ValueError_missing_sheets missing_sheets)
      else read_sheets excel_data required_sheets ∅
  end.

(** How a row of the merged frame resolves the keys of its record. *)
Definition resolved (accidents_df : list AccidentRecord)
    (a : AccidentRecord) (x : AccidentWithLocation) : Prop :=
  col_accident x = a ∧
  (∃ d, d ∈ dim_date_df accidents_df ∧
        Date d = dt_date <$> ReportedAt a ∧ col_DateID x = Some (DateID d)) ∧
  (∃ l, l ∈ dim_location_df accidents_df ∧
        LocationName l = Location a ∧ col_LocationID x = Some (LocationID l)).

(** ** Example batches *)

(** The database right after [create_tables]: five empty tables. *)
Definition empty_engine : Engine :=
  {| Dim_Location := []; Dim_Vehicle := []; Dim_RoadCondition := [];
     Dim_Date := []; Fact_Accidents := [] |}.

(** One accident, reported on 1970-01-02 at 01:00. *)
Definition one_o_clock : Timestamp := ns_per_day + 3600 * 1000000000.

Definition accident_at_one_o_clock : list AccidentRecord :=
  [ {| AccidentID := Some 1; ReportedAt := Some one_o_clock;
       Location := Some "A"; VehiclesInvolved := Some 1;
       Severity := Some (Str "Minor") |} ].

(** A generator whose raw outcomes are fixed in advance. *)
Definition fixed_outcomes : Random :=
  {| outcomes := λ n, 7919 * Z.of_nat n + 4321; drawn := 0 |}.

(** Another generator, some draws into its sequence. *)
Definition other_outcomes : Random :=
  {| outcomes := λ n, 104729 * Z.of_nat n + 17; drawn := 5 |}.

(** Two records with the same AccidentID; the first one has no
    VehiclesInvolved and no Severity. *)
Definition duplicated_accident : list AccidentRecord :=
  [ {| AccidentID := Some 7; ReportedAt := Some 0;
       Location := Some "A"; VehiclesInvolved := None; Severity := None |};
    {| AccidentID := Some 7; ReportedAt := Some one_o_clock;
       Location := Some "B"; VehiclesInvolved := Some 3;
       Severity := Some (Str "Severe") |} ].

(** An accident at location A, reported on 1970-01-02 at 12:00. *)
Definition noon : Timestamp := ns_per_day + 12 * 3600 * 1000000000.

Definition accident_at_noon : list AccidentRecord :=
  [ {| AccidentID := Some 1; ReportedAt := Some noon;
       Location := Some "A"; VehiclesInvolved := Some 2;
       Severity := Some (Str "Moderate") |} ].

Definition reading (id : Z) (location : string) (recorded_at : Timestamp)
    : RoadConditionRecord :=
  {| ConditionID := Some id; rc_Location := Some location;
     RecordedAt := Some recorded_at;
     Surface := Some "Dry"; Visibility := Some "Clear" |}.

Definition minutes (n : Z) : Z := n * 60 * 1000000000.

(** A reading at another location, then three readings at A taken 3 h
    before, 10 min before and 1 h after the accident. *)
Definition readings_after_another_location : list RoadConditionRecord :=
  [ reading 1 "B" noon;
    reading 2 "A" (noon - minutes 180);
    reading 3 "A" (noon - minutes 10);
    reading 4 "A" (noon + minutes 60) ].

(** The same readings with the nearest one last. *)
Definition readings_nearest_last : list RoadConditionRecord :=
  [ reading 1 "B" noon;
    reading 2 "A" (noon - minutes 180);
    reading 4 "A" (noon + minutes 60);
    reading 3 "A" (noon - minutes 10) ].

(** The grouped row of [accident_at_noon]. *)
Definition grouped_row_at_noon : GroupedRow :=
  {| g_AccidentID := 1; g_ReportedAt := Some noon; g_Location := Some "A";
     g_VehiclesInvolved := Some 2; g_Severity := Some (Str "Moderate");
     g_ReportedAt_Date := Some 1; g_DateID := Some 1; g_Date := Some 1;
     g_LocationID := Some 1; g_LocationName := Some "A" |}.

(** A parser that reads a number as nanoseconds since the epoch and nothing
    else, in whatever column, and a sheet with a column of mixed cells. *)
Definition parse_epoch (col : list Cell) (v : Scalar) : option Timestamp :=
  match v with
  | Int z => Some z
  | Stamp t => Some t
  | Str _ => None
  end.

Definition mixed_sheet : DataFrame :=
  <["ReportedAt" := [Some (Int 90000000000000); Some (Str "yesterday"); None]]>
    (<["Location" := [Some (Str "A"); Some (Str "B"); Some (Str "C")]]> ∅).



(** A batch out of AccidentID order: accident 5, then two records of
    accident 3 that complete each other, a record without AccidentID and an
    accident without ReportedAt. *)
Definition unordered_accidents : list AccidentRecord :=
  [ {| AccidentID := Some 5; ReportedAt := Some noon; Location := Some "A";
       VehiclesInvolved := Some 2; Severity := Some (Str "Moderate") |};
    {| AccidentID := Some 3; ReportedAt := Some one_o_clock; Location := Some "B";
       VehiclesInvolved := None; Severity := None |};
    {| AccidentID := Some 3; ReportedAt := None; Location := Some "B";
       VehiclesInvolved := Some 4; Severity := Some (Str "Severe") |};
    {| AccidentID := None; ReportedAt := Some noon; Location := Some "A";
       VehiclesInvolved := Some 1; Severity := Some (Str "Minor") |};
    {| AccidentID := Some 9; ReportedAt := None; Location := Some "C";
       VehiclesInvolved := Some 1; Severity := Some (Str "Minor") |} ].

(** Three readings, all at A: 3 h before, 10 min before and 1 h after noon. *)
Definition readings_at_A : list RoadConditionRecord :=
  [ reading 2 "A" (noon - minutes 180);
    reading 3 "A" (noon - minutes 10);
    reading 4 "A" (noon + minutes 60) ].

(** * Properties *)

(** ** [unique]: distinct values in order of first appearance *)

Section unique.
Context `{EqDecision A}.
Implicit Types (l seen : list A) (x y : A).

Lemma elem_of_unique_from seen l x :
  x ∈ pd.unique_from seen l ↔ x ∈ l ∧ x ∉ seen.
Proof.
  revert seen. induction l as [|a l IH]; intros seen; simpl.
  - rewrite elem_of_nil. tauto.
  - case_decide as Ha.
    + rewrite IH, elem_of_cons. naive_solver.
    + rewrite !elem_of_cons, IH, elem_of_cons.
      destruct (decide (x = a)); naive_solver.
Qed.

Lemma NoDup_unique_from seen l : NoDup (pd.unique_from seen l).
Proof.
  revert seen. induction l as [|a l IH]; intros seen; simpl.
  - constructor.
  - case_decide; [apply IH|]. constructor; [|apply IH].
    rewrite elem_of_unique_from, elem_of_cons. naive_solver.
Qed.

(** Every entry of the result sits in the input at the position where its
    value appears for the first time. *)
Lemma unique_from_lookup seen l i x :
  pd.unique_from seen l !! i = Some x →
  ∃ p, l !! p = Some x ∧ (x ∉ take p l) ∧ x ∉ seen.
Proof.
  intros Hi. assert (x ∈ pd.unique_from seen l) as Hx
    by (apply list_elem_of_lookup; eauto).
  apply elem_of_unique_from in Hx as [Hl Hs].
  clear Hi. induction l as [|a l IH]; [by apply elem_of_nil in Hl|].
  destruct (decide (x = a)) as [->|Hne].
  - exists 0%nat. simpl. split_and!; [done|apply not_elem_of_nil|done].
  - apply elem_of_cons in Hl as [?|Hl]; [done|].
    destruct (IH Hl) as (p & Hp & Ht & _).
    exists (S p). simpl. split_and!; [done| |done].
    rewrite elem_of_cons. tauto.
Qed.

(** Two entries of the result stand in the order of their first
    appearances in the input. *)
Lemma unique_from_order seen l i j x y :
  (i < j)%nat →
  pd.unique_from seen l !! i = Some x →
  pd.unique_from seen l !! j = Some y →
  ∃ p q, (p < q)%nat ∧ l !! p = Some x ∧ l !! q = Some y ∧
         (x ∉ take p l) ∧ y ∉ take q l.
Proof.
  revert seen i j. induction l as [|a l IH]; intros seen i j Hij Hi Hj; simpl in *.
  - by rewrite lookup_nil in Hi.
  - case_decide as Ha.
    + destruct (IH _ _ _ Hij Hi Hj) as (p & q & Hpq & Hp & Hq & Hx & Hy).
      assert (x ∈ pd.unique_from seen l) as Hxs by (apply list_elem_of_lookup; eauto).
      assert (y ∈ pd.unique_from seen l) as Hys by (apply list_elem_of_lookup; eauto).
      apply elem_of_unique_from in Hxs as [_ Hxs].
      apply elem_of_unique_from in Hys as [_ Hys].
      exists (S p), (S q). simpl. split_and!; [lia|done|done| |].
      * rewrite elem_of_cons. intros [->|?]; done.
      * rewrite elem_of_cons. intros [->|?]; done.
    + destruct j as [|j]; [lia|]. simpl in Hj.
      destruct (unique_from_lookup _ _ _ _ Hj) as (q & Hq & Hy & Hys).
      destruct i as [|i]; simpl in Hi.
      * injection Hi as ->. exists 0%nat, (S q). simpl.
        split_and!; [lia|done|done|apply not_elem_of_nil|].
        rewrite elem_of_cons in Hys. rewrite elem_of_cons. naive_solver.
      * assert (i < j)%nat as Hij' by lia.
        destruct (IH _ _ _ Hij' Hi Hj) as (p & q' & Hpq & Hp & Hq' & Hx & Hy').
        assert (x ∈ pd.unique_from (a :: seen) l) as Hxs
          by (apply list_elem_of_lookup; eauto).
        apply elem_of_unique_from in Hxs as [_ Hxs].
        rewrite elem_of_cons in Hxs, Hys.
        exists (S p), (S q'). simpl. split_and!; [lia|done|done| |].
        -- rewrite elem_of_cons. naive_solver.
        -- rewrite elem_of_cons. naive_solver.
Qed.

Lemma elem_of_unique l x : x ∈ pd.unique l ↔ x ∈ l.
Proof.
  unfold pd.unique. rewrite elem_of_unique_from, elem_of_nil. tauto.
Qed.

Lemma NoDup_unique l : NoDup (pd.unique l).
Proof. apply NoDup_unique_from. Qed.

Lemma unique_nil : pd.unique (@nil A) = [].
Proof. reflexivity. Qed.

End unique.

(** The number of entries of [unique] is the number of distinct values. *)
Lemma length_unique `{Countable A} (l : list A) :
  length (pd.unique l) = size (list_to_set l : gset A).
Proof.
  rewrite <- (size_list_to_set (C:=gset A) (pd.unique l)) by apply NoDup_unique.
  f_equal. apply set_eq. intros x.
  rewrite !elem_of_list_to_set. apply elem_of_unique.
Qed.

(** ** Dimension builders *)

Lemma length_range_from_1 (n : nat) : length (pd.range 1 (Z.of_nat n + 1)) = n.
Proof. unfold pd.range. rewrite length_seqZ. lia. Qed.

Lemma range_from_1 (n : nat) : pd.range 1 (Z.of_nat n + 1) = seqZ 1 (Z.of_nat n).
Proof. unfold pd.range. f_equal. lia. Qed.

Lemma dim_location_df_ids accidents_df :
  LocationID <$> dim_location_df accidents_df
  = seqZ 1 (Z.of_nat (length (pd.unique (Location <$> accidents_df)))).
Proof.
  unfold dim_location_df. rewrite fmap_zip_with_l; [apply range_from_1|done|].
  by rewrite length_range_from_1.
Qed.

Lemma dim_location_df_names accidents_df :
  LocationName <$> dim_location_df accidents_df
  = pd.unique (Location <$> accidents_df).
Proof.
  unfold dim_location_df. rewrite fmap_zip_with_r; [done..|].
  by rewrite length_range_from_1.
Qed.

(** C4: the location dimension numbers its rows 1..n, n being the number of
    distinct Location values of the batch (a missing Location counts as one
    value), and its LocationName column holds each distinct value once, in
    the order in which the values first appear in the batch. *)
Theorem populate_dim_location_first_appearance
    (accidents_df : list AccidentRecord) (engine : Engine) :
  ∃ df,
    populate_dim_location accidents_df engine
      = Ok (df, to_sql_Dim_Location df engine) ∧
    let locations := Location <$> accidents_df in
    let names := LocationName <$> df in
    LocationID <$> df
      = seqZ 1 (Z.of_nat (size (list_to_set locations : gset (option string)))) ∧
    NoDup names ∧
    (∀ x, x ∈ names ↔ x ∈ locations) ∧
    (∀ i j x y, (i < j)%nat → names !! i = Some x → names !! j = Some y →
       ∃ p q, (p < q)%nat ∧
         locations !! p = Some x ∧ locations !! q = Some y ∧
         (x ∉ take p locations) ∧ y ∉ take q locations).
Proof.
  exists (dim_location_df accidents_df). split; [done|]. simpl.
  rewrite dim_location_df_ids, dim_location_df_names, length_unique.
  split_and!.
  - done.
  - apply NoDup_unique.
  - intros x. apply elem_of_unique.
  - intros i j x y. apply unique_from_order.
Qed.

Lemma dt_date_date_to_datetime d : dt_date (date_to_datetime d) = d.
Proof. unfold dt_date, date_to_datetime. by apply Z.div_mul. Qed.

Lemma fmap_zip_with_zip_l {A B C D} (f : A → B * C → D) (g : D → B)
    (ids : list A) (bs : list B) (cs : list C) :
  (∀ a b c, g (f a (b, c)) = b) →
  (length bs ≤ length ids)%nat → (length bs ≤ length cs)%nat →
  g <$> zip_with f ids (zip bs cs) = bs.
Proof.
  intros Hg. revert ids cs.
  induction bs as [|b bs IH]; intros [|a ids] [|c cs] ??; simpl in *; try lia; [done..|].
  rewrite Hg. f_equal. apply IH; lia.
Qed.

(** The calendar dates of the ReportedAt column, null for a null timestamp. *)
Lemma dim_date_df_ids accidents_df :
  DateID <$> dim_date_df accidents_df
  = seqZ 1 (Z.of_nat (length
      (pd.unique ((λ r, option_map dt_date (ReportedAt r)) <$> accidents_df)))).
Proof.
  unfold dim_date_df, pd.drop_duplicates.
  rewrite fmap_zip_with_l; [apply range_from_1|by intros ? []|].
  by rewrite length_range_from_1, length_zip, length_fmap, Nat.min_id.
Qed.

Lemma dim_date_df_dates accidents_df :
  Date <$> dim_date_df accidents_df
  = pd.unique ((λ r, option_map dt_date (ReportedAt r)) <$> accidents_df).
Proof.
  unfold dim_date_df, pd.drop_duplicates.
  apply fmap_zip_with_zip_l; [done|..].
  - by rewrite length_range_from_1.
  - by rewrite length_fmap.
Qed.

(** Month, Year and Time of a row are those of its Date at midnight. *)
Lemma dim_date_df_rows accidents_df :
  Forall (λ row,
      Month row = date_month <$> Date row ∧
      Year row = date_year <$> Date row ∧
      Time row = date_to_datetime <$> Date row)
    (dim_date_df accidents_df).
Proof.
  unfold dim_date_df. apply Forall_lookup. intros i row Hrow.
  apply lookup_zip_with_Some in Hrow as (id & [d dt] & -> & _ & Hz).
  apply lookup_zip_with_Some in Hz as (d' & dt' & [= <- <-] & Hd & Hdt).
  rewrite list_lookup_fmap, Hd in Hdt. injection Hdt as <-. simpl.
  destruct d as [d|]; simpl; [|done].
  unfold dt_month, dt_year. by rewrite dt_date_date_to_datetime.
Qed.

(** C5: the date dimension has one row per distinct calendar date of the
    ReportedAt column (a missing timestamp gives the null date), in order of
    first appearance, numbered 1, 2, ...; Month and Year of every row are the
    month and the year of the row's Date. *)
Theorem populate_dim_date_first_appearance
    (accidents_df : list AccidentRecord) (engine : Engine) :
  ∃ df,
    populate_dim_date accidents_df engine = Ok (df, to_sql_Dim_Date df engine) ∧
    let reported_dates :=
      (λ r, dt_date <$> ReportedAt r) <$> accidents_df in
    let dates := Date <$> df in
    DateID <$> df = seqZ 1 (Z.of_nat (length df)) ∧
    length df = size (list_to_set reported_dates : gset (option date)) ∧
    NoDup dates ∧
    (∀ d, d ∈ dates ↔ d ∈ reported_dates) ∧
    (∀ i j x y, (i < j)%nat → dates !! i = Some x → dates !! j = Some y →
       ∃ p q, (p < q)%nat ∧
         reported_dates !! p = Some x ∧ reported_dates !! q = Some y ∧
         (x ∉ take p reported_dates) ∧ y ∉ take q reported_dates) ∧
    Forall (λ row, Month row = date_month <$> Date row ∧
                   Year row = date_year <$> Date row) df.
Proof.
  exists (dim_date_df accidents_df). split; [done|]. simpl.
  assert (length (dim_date_df accidents_df)
          = length (pd.unique ((λ r, dt_date <$> ReportedAt r) <$> accidents_df)))
    as Hlen by (by rewrite <- dim_date_df_dates, length_fmap).
  rewrite dim_date_df_ids, dim_date_df_dates, Hlen.
  split_and!.
  - done.
  - apply length_unique.
  - apply NoDup_unique.
  - intros d. apply elem_of_unique.
  - intros i j x y. apply unique_from_order.
  - eapply Forall_impl; [apply dim_date_df_rows|]. naive_solver.
Qed.

(** C3: the Time of a date row is not the first timestamp observed on that
    date.  For one accident reported on 1970-01-02 at 01:00 the row of that
    date carries 1970-01-02 00:00, the date converted back to a timestamp. *)
Theorem dim_date_time_is_midnight (engine : Engine) :
  ∃ df,
    populate_dim_date accident_at_one_o_clock engine
      = Ok (df, to_sql_Dim_Date df engine) ∧
    Date <$> df = [Some 1] ∧
    Time <$> df = [Some 86400000000000] ∧
    (λ row, Date row ≫= first_observed accident_at_one_o_clock) <$> df
      = [Some 90000000000000].
Proof. exists (dim_date_df accident_at_one_o_clock). by vm_compute. Qed.

(** C8, as stated, fails: on the empty batch the location builder does not
    raise. *)
Lemma populate_dim_location_empty_no_error :
  ¬ ∃ e, populate_dim_location [] empty_engine = Raise e.
Proof. intros [e He]. discriminate He. Qed.

(** C8, amended: on the empty batch the location builder returns normally,
    with an empty table; the empty table replaces the stored Dim_Location
    and the other tables stay as they were. *)
Theorem populate_dim_location_empty (engine : Engine) :
  ∃ engine',
    populate_dim_location [] engine = Ok ([], engine') ∧
    Dim_Location engine' = [] ∧
    Dim_Vehicle engine' = Dim_Vehicle engine ∧
    Dim_RoadCondition engine' = Dim_RoadCondition engine ∧
    Dim_Date engine' = Dim_Date engine ∧
    Fact_Accidents engine' = Fact_Accidents engine.
Proof.
  exists (to_sql_Dim_Location [] engine).
  unfold populate_dim_location, dim_location_df.
  rewrite fmap_nil, unique_nil. split_and!; reflexivity.
Qed.

(** ** The random generator *)

Lemma randint_range a b g r g' :
  a ≤ b → random.randint a b g = Ok (r, g') → a ≤ r ≤ b.
Proof.
  intros Hab [= <- _].
  pose proof (Z.mod_pos_bound (outcomes g (drawn g)) (b - a + 1)). lia.
Qed.

(** Every value of the range is an outcome of [randint]. *)
Lemma randint_onto a b r :
  a ≤ r ≤ b →
  ∀ g, outcomes g (drawn g) = r - a → ∃ g', random.randint a b g = Ok (r, g').
Proof.
  intros Hr g Hg. eexists. unfold random.randint, random.randbelow, bind, ret.
  rewrite Hg, Z.mod_small by lia. do 2 f_equal. lia.
Qed.

(** ** Group keys *)

Lemma elem_of_insert_key k ks x : x ∈ pd.insert_key k ks ↔ x = k ∨ x ∈ ks.
Proof.
  induction ks as [|k' ks IH]; simpl.
  - rewrite list_elem_of_singleton, elem_of_nil. tauto.
  - repeat case_decide; subst; rewrite ?elem_of_cons, ?IH; naive_solver.
Qed.

Lemma insert_key_sorted k ks :
  StronglySorted Z.lt ks → StronglySorted Z.lt (pd.insert_key k ks).
Proof.
  induction 1 as [|k' ks Hks IH Hk']; simpl.
  - repeat constructor.
  - rewrite Forall_forall in Hk'. repeat case_decide.
    + constructor; [by constructor; [|apply Forall_forall]|].
      constructor; [done|]. apply Forall_forall. intros y Hy.
      specialize (Hk' y Hy). lia.
    + constructor; [done|by apply Forall_forall].
    + constructor; [done|]. apply Forall_forall. intros y Hy.
      apply elem_of_insert_key in Hy as [->|Hy]; [lia|by apply Hk'].
Qed.

Lemma group_keys_sorted col : StronglySorted Z.lt (pd.group_keys col).
Proof.
  unfold pd.group_keys. induction (omap id col) as [|k ks IH]; simpl.
  - constructor.
  - by apply insert_key_sorted.
Qed.

Lemma StronglySorted_lt_NoDup (ks : list Z) : StronglySorted Z.lt ks → NoDup ks.
Proof.
  induction 1 as [|k ks Hks IH Hk]; constructor; [|done].
  intros Hin. rewrite Forall_forall in Hk. specialize (Hk k Hin). lia.
Qed.

Lemma group_keys_NoDup col : NoDup (pd.group_keys col).
Proof. apply StronglySorted_lt_NoDup, group_keys_sorted. Qed.

Lemma elem_of_group_keys col k : k ∈ pd.group_keys col ↔ Some k ∈ col.
Proof.
  unfold pd.group_keys. induction col as [|[k'|] col IH]; simpl.
  - by rewrite !elem_of_nil.
  - rewrite elem_of_insert_key, elem_of_cons, IH. naive_solver.
  - rewrite elem_of_cons, IH. naive_solver.
Qed.

Lemma groupby_AccidentID_first_ids df :
  g_AccidentID <$> groupby_AccidentID_first df
  = pd.group_keys ((λ x, AccidentID (col_accident x)) <$> df).
Proof.
  unfold groupby_AccidentID_first. rewrite <- list_fmap_compose.
  by rewrite <- (list_fmap_id (pd.group_keys _)) at 2.
Qed.

(** ** The loop of the fact builder *)

Lemma filter_none {A} (P : A → Prop) `{∀ x, Decision (P x)} (l : list A) :
  Forall (λ x, ¬ P x) l → filter P l = [].
Proof.
  induction 1 as [|x l Hx _ IH]; [done|].
  by rewrite filter_cons_False.
Qed.

Lemma matching_conditions_nil road_conditions_df accident_location :
  no_reading_at road_conditions_df accident_location →
  matching_conditions road_conditions_df accident_location = [].
Proof.
  unfold no_reading_at, matching_conditions, pd.labelled. intros Hno.
  apply filter_none. apply Forall_forall. intros [i c] Hin Hc.
  apply list_elem_of_lookup in Hin as [j Hj].
  rewrite list_lookup_imap in Hj.
  destruct (road_conditions_df !! j) as [c'|] eqn:Hc'; [|done].
  injection Hj as <- <-.
  rewrite Forall_forall in Hno. eapply Hno; [|done].
  apply list_elem_of_lookup; eauto.
Qed.

Lemma fact_row_skips road_conditions_df row g :
  ¬ survives row → fact_row road_conditions_df row g = Ok (None, g).
Proof.
  unfold survives, fact_row. intros Hs.
  destruct (g_ReportedAt row), (g_Location row); try done.
  exfalso. apply Hs. eauto.
Qed.

Lemma fact_row_emits road_conditions_df row g emitted g' :
  survives row →
  fact_row road_conditions_df row g = Ok (emitted, g') →
  ∃ fact, emitted = Some fact ∧ emitted_for road_conditions_df row fact.
Proof.
  unfold survives, fact_row. intros [[reported_at Ht] [accident_location Hl]].
  rewrite Ht, Hl. unfold bind at 1.
  destruct (random.randint 1 200 g) as [[vehicle_id g1]|] eqn:Hv; [|done].
  apply randint_range in Hv; [|lia].
  unfold bind at 1.
  destruct (road_condition_id _ _ _ g1) as [[rc g2]|] eqn:Hrc; [|done].
  intros [= <- <-]. eexists; split; [done|]. split; simpl; try done.
  intros loc Hloc Hno. rewrite Hl in Hloc. injection Hloc as <-.
  unfold road_condition_id in Hrc.
  rewrite (matching_conditions_nil _ _ Hno) in Hrc.
  case_decide; [done|]. unfold bind in Hrc.
  destruct (random.randint 1 100 g1) as [[r g3]|] eqn:Hr; [|done].
  injection Hrc as <- <-. apply randint_range in Hr; [|lia]. eauto.
Qed.

Lemma iterrows_emits road_conditions_df rows fact_accidents_data g facts g' :
  iterrows road_conditions_df rows fact_accidents_data g = Ok (facts, g') →
  ∃ new, facts = fact_accidents_data ++ new ∧
    Forall2 (emitted_for road_conditions_df) (filter survives rows) new.
Proof.
  revert fact_accidents_data g.
  induction rows as [|row rows IH]; intros data g; simpl.
  - intros [= <- <-]. exists []. by rewrite app_nil_r.
  - unfold bind at 1.
    destruct (fact_row road_conditions_df row g) as [[emitted g1]|] eqn:Hrow; [|done].
    intros Hrest. apply IH in Hrest as (new & -> & Hnew).
    rewrite filter_cons. case_decide as Hs.
    + destruct (fact_row_emits _ _ _ _ _ Hs Hrow) as (fact & -> & Hfact).
      exists (fact :: new). rewrite <- app_assoc. split; [done|].
      by constructor.
    + rewrite fact_row_skips in Hrow by done. injection Hrow as <- <-.
      by exists new.
Qed.

(** The builder returns when the loop does and has emitted a row; the rows
    of the loop then replace the stored fact table. *)
Lemma populate_fact_accidents_inv
    accidents_df dim_location_df dim_date_df road_conditions_df engine g engine' g' :
  populate_fact_accidents accidents_df dim_location_df dim_date_df
    road_conditions_df engine g = Ok (engine', g') →
  ∃ facts,
    iterrows road_conditions_df
      (grouped_accidents accidents_df dim_location_df dim_date_df) [] g
      = Ok (facts, g') ∧
    facts ≠ [] ∧
    engine' = to_sql_Fact_Accidents facts engine.
Proof.
  unfold populate_fact_accidents, bind at 1.
  destruct (iterrows _ _ _ g) as [[[|fact facts] g1]|]; [done| |done].
  intros [= <- <-]. by eexists.
Qed.

Lemma populate_fact_accidents_emits
    accidents_df dim_location_df dim_date_df road_conditions_df engine g engine' g' :
  populate_fact_accidents accidents_df dim_location_df dim_date_df
    road_conditions_df engine g = Ok (engine', g') →
  engine' = to_sql_Fact_Accidents (Fact_Accidents engine') engine ∧
  Forall2 (emitted_for road_conditions_df)
    (filter survives (grouped_accidents accidents_df dim_location_df dim_date_df))
    (Fact_Accidents engine').
Proof.
  intros (facts & Hloop & _ & ->)%populate_fact_accidents_inv.
  apply iterrows_emits in Hloop as (new & -> & Hnew).
  by simpl.
Qed.

Lemma emitted_ids road_conditions_df rows facts :
  Forall2 (emitted_for road_conditions_df) rows facts →
  f_AccidentID <$> facts = g_AccidentID <$> rows.
Proof.
  induction 1 as [|row fact rows facts Hfact _ IH]; [done|].
  by rewrite !fmap_cons, IH, (emitted_AccidentID _ _ _ Hfact).
Qed.

(** The fact table never holds two rows with the same AccidentID, whatever
    the batch. *)
Lemma fact_accident_ids_unique
    accidents_df dim_location_df dim_date_df road_conditions_df engine g engine' g' :
  populate_fact_accidents accidents_df dim_location_df dim_date_df
    road_conditions_df engine g = Ok (engine', g') →
  NoDup (f_AccidentID <$> Fact_Accidents engine').
Proof.
  intros [_ Hrows]%populate_fact_accidents_emits.
  rewrite (emitted_ids _ _ _ Hrows).
  eapply sublist_NoDup; [|apply fmap_sublist, sublist_filter].
  unfold grouped_accidents. rewrite groupby_AccidentID_first_ids.
  apply group_keys_NoDup.
Qed.

(** C1: the row kept for a duplicated AccidentID is not the first record with
    that id.  Of two records with AccidentID 7, the first without
    VehiclesInvolved and Severity, the emitted row takes both from the second
    record: 3 vehicles and score 3, where the first record has none and would
    score 1.  (At most one row per AccidentID does hold:
    [fact_accident_ids_unique].) *)
Theorem duplicated_accident_mixes_records (g : Random) :
  ∃ engine' g' fact first_record,
    populate_fact_accidents duplicated_accident
      (dim_location_df duplicated_accident) (dim_date_df duplicated_accident)
      [] empty_engine g = Ok (engine', g') ∧
    Fact_Accidents engine' = [fact] ∧
    f_AccidentID fact = 7 ∧
    first_occurrence duplicated_accident 7 = Some first_record ∧
    VehiclesInvolved first_record = None ∧
    f_VehiclesInvolved fact = Some 3 ∧
    dict_get severity_map (Severity first_record) 1 = 1 ∧
    f_SeverityScore fact = 3.
Proof.
  eexists _, _, _, _. split; [reflexivity|]. simpl.
  split_and!; reflexivity.
Qed.

(** ** The nearest reading *)

(** [nearest_condition] is what its name says: a reading with a RecordedAt
    whose distance to [reported_at] is minimal, and the first such one. *)
Lemma nearest_from_minimal reported_at rest : ∀ c0 v0,
  let c := nearest_from reported_at (c0, v0) rest in
  (c = c0 ∧
   ∀ q c' t', rest !! q = Some c' → RecordedAt c' = Some t' →
     v0 ≤ Z.abs (t' - reported_at))
  ∨ (∃ p tc, rest !! p = Some c ∧ RecordedAt c = Some tc ∧
       Z.abs (tc - reported_at) < v0 ∧
       ∀ q c' t', rest !! q = Some c' → RecordedAt c' = Some t' →
         Z.abs (tc - reported_at) ≤ Z.abs (t' - reported_at) ∧
         ((q < p)%nat → Z.abs (tc - reported_at) < Z.abs (t' - reported_at))).
Proof.
  induction rest as [|x rest IH]; intros c0 v0; simpl.
  - left. split; [done|]. intros q c' t' Hq. by rewrite lookup_nil in Hq.
  - destruct (RecordedAt x) as [tx|] eqn:Hx; [case_decide as Hlt|].
    + right. destruct (IH x (Z.abs (tx - reported_at)))
        as [[-> Hall]|(p & tc & Hp & Htc & Hv & Hall)].
      * exists 0%nat, tx. split_and!; [done..|].
        intros [|q] c' t' Hq Ht'; simpl in Hq.
        -- injection Hq as <-. rewrite Hx in Ht'. injection Ht' as <-. lia.
        -- specialize (Hall q c' t' Hq Ht'). lia.
      * exists (S p), tc. split_and!; [done|done|lia|].
        intros [|q] c' t' Hq Ht'; simpl in Hq.
        -- injection Hq as <-. rewrite Hx in Ht'. injection Ht' as <-. lia.
        -- destruct (Hall q c' t' Hq Ht'). split; [done|]. intros ?. lia.
    + destruct (IH c0 v0) as [[-> Hall]|(p & tc & Hp & Htc & Hv & Hall)].
      * left. split; [done|]. intros [|q] c' t' Hq Ht'; simpl in Hq.
        -- injection Hq as <-. rewrite Hx in Ht'. injection Ht' as <-. lia.
        -- by apply (Hall q c' t').
      * right. exists (S p), tc. split_and!; [done..|].
        intros [|q] c' t' Hq Ht'; simpl in Hq.
        -- injection Hq as <-. rewrite Hx in Ht'. injection Ht' as <-. lia.
        -- destruct (Hall q c' t' Hq Ht'). split; [done|]. intros ?. lia.
    + destruct (IH c0 v0) as [[-> Hall]|(p & tc & Hp & Htc & Hv & Hall)].
      * left. split; [done|]. intros [|q] c' t' Hq Ht'; simpl in Hq.
        -- injection Hq as <-. by rewrite Hx in Ht'.
        -- by apply (Hall q c' t').
      * right. exists (S p), tc. split_and!; [done..|].
        intros [|q] c' t' Hq Ht'; simpl in Hq.
        -- injection Hq as <-. by rewrite Hx in Ht'.
        -- destruct (Hall q c' t' Hq Ht'). split; [done|]. intros ?. lia.
Qed.

Lemma nearest_condition_minimal reported_at l c :
  nearest_condition l reported_at = Some c →
  ∃ p tc, l !! p = Some c ∧ RecordedAt c = Some tc ∧
    ∀ q c' t', l !! q = Some c' → RecordedAt c' = Some t' →
      Z.abs (tc - reported_at) ≤ Z.abs (t' - reported_at) ∧
      ((q < p)%nat → Z.abs (tc - reported_at) < Z.abs (t' - reported_at)).
Proof.
  induction l as [|x l IH]; simpl; [done|].
  destruct (RecordedAt x) as [tx|] eqn:Hx.
  - intros [= <-].
    destruct (nearest_from_minimal reported_at l x (Z.abs (tx - reported_at)))
      as [[-> Hall]|(p & tc & Hp & Htc & Hv & Hall)].
    + exists 0%nat, tx. split_and!; [done..|].
      intros [|q] c' t' Hq Ht'; simpl in Hq.
      * injection Hq as <-. rewrite Hx in Ht'. injection Ht' as <-. lia.
      * specialize (Hall q c' t' Hq Ht'). lia.
    + exists (S p), tc. split_and!; [done..|].
      intros [|q] c' t' Hq Ht'; simpl in Hq.
      * injection Hq as <-. rewrite Hx in Ht'. injection Ht' as <-. lia.
      * destruct (Hall q c' t' Hq Ht'). split; [done|]. intros ?. lia.
  - intros (p & tc & Hp & Htc & Hall)%IH. exists (S p), tc.
    split_and!; [done..|]. intros [|q] c' t' Hq Ht'; simpl in Hq.
    + injection Hq as <-. by rewrite Hx in Ht'.
    + destruct (Hall q c' t' Hq Ht'). split; [done|]. intros ?. lia.
Qed.

Lemma filter_all {A} (P : A → Prop) `{∀ x, Decision (P x)} (l : list A) :
  Forall P l → filter P l = l.
Proof.
  induction 1 as [|x l Hx _ IH]; [done|].
  by rewrite filter_cons_True, IH.
Qed.

Lemma matching_conditions_all road_conditions_df accident_location :
  Forall (λ c, rc_Location c = Some accident_location) road_conditions_df →
  matching_conditions road_conditions_df accident_location
  = pd.labelled road_conditions_df.
Proof.
  intros Hall. unfold matching_conditions. apply filter_all.
  apply Forall_lookup. intros i [j c] Hi. unfold pd.labelled in Hi.
  rewrite list_lookup_imap in Hi.
  destruct (road_conditions_df !! i) as [c'|] eqn:Hc; [|done].
  injection Hi as <- <-. simpl.
  by apply (Forall_lookup_1 _ _ _ _ Hall Hc).
Qed.

Lemma idxmin_from_nearest reported_at l : ∀ k i0 c0 v0,
  let j := pd.idxmin_from (i0, v0)
             (abs_diffs (imap (λ i c, ((k + i)%nat, c)) l) reported_at) in
  let c := nearest_from reported_at (c0, v0) l in
  (j = i0 ∧ c = c0) ∨ (∃ p, j = (k + p)%nat ∧ l !! p = Some c).
Proof.
  induction l as [|x l IH]; intros k i0 c0 v0; simpl; [by left|].
  rewrite (imap_ext _ (λ i c, ((S k + i)%nat, c))) by (intros; simpl; f_equal; lia).
  destruct (RecordedAt x) as [t|]; simpl; [case_decide|].
  - destruct (IH (S k) (k + 0)%nat x (Z.abs (t - reported_at)))
      as [[Hj Hc]|(p & Hj & Hc)]; right; simpl in *.
    + exists 0%nat. by rewrite Hj, Hc.
    + exists (S p). split; [lia|done].
  - destruct (IH (S k) i0 c0 v0) as [[Hj Hc]|(p & Hj & Hc)]; [by left|right].
    exists (S p). simpl in *. split; [lia|done].
  - destruct (IH (S k) i0 c0 v0) as [[Hj Hc]|(p & Hj & Hc)]; [by left|right].
    exists (S p). simpl in *. split; [lia|done].
Qed.

Lemma idxmin_nearest reported_at l : ∀ k,
  match nearest_condition l reported_at with
  | Some c =>
      ∃ p, pd.idxmin (abs_diffs (imap (λ i c, ((k + i)%nat, c)) l) reported_at)
           = Ok (k + p)%nat ∧ l !! p = Some c
  | None =>
      pd.idxmin (abs_diffs (imap (λ i c, ((k + i)%nat, c)) l) reported_at)
      = Raise ValueError
  end.
Proof.
  induction l as [|x l IH]; intros k; simpl; [done|].
  rewrite (imap_ext _ (λ i c, ((S k + i)%nat, c))) by (intros; simpl; f_equal; lia).
  destruct (RecordedAt x) as [t|]; simpl.
  - destruct (idxmin_from_nearest reported_at l (S k) (k + 0)%nat x
               (Z.abs (t - reported_at))) as [[Hj Hc]|(p & Hj & Hc)]; simpl in *.
    + exists 0%nat. by rewrite Hj, Hc.
    + exists (S p). rewrite Hj. split; [f_equal; lia|done].
  - specialize (IH (S k)). simpl in IH.
    destruct (nearest_condition l reported_at); [|done].
    destruct IH as (p & -> & Hp). exists (S p). split; [f_equal; lia|done].
Qed.

(** The subtraction of line 340 either overflows or gives the distances. *)
Lemma time_diffs_inv matching reported_at diffs :
  time_diffs matching reported_at = Ok diffs →
  diffs = abs_diffs matching reported_at.
Proof.
  unfold time_diffs, pd.sub, and_then. case_decide; [|done].
  intros [= <-]. unfold pd.abs, abs_diffs. rewrite <- !list_fmap_compose.
  apply list_fmap_ext. intros _ [i c] _. simpl. by destruct (RecordedAt c).
Qed.

Lemma time_diffs_raises matching reported_at e :
  time_diffs matching reported_at = Raise e → e = OverflowError.
Proof.
  unfold time_diffs, pd.sub, and_then. case_decide; [done|]. by intros [= <-].
Qed.

(** When every reading of the batch was taken at the accident's location,
    labels and positions coincide, and the lookup, when it returns, returns
    the nearest reading. *)
Lemma road_condition_id_nearest road_conditions_df accident_location reported_at g id g' :
  Forall (λ c, rc_Location c = Some accident_location) road_conditions_df →
  road_conditions_df ≠ [] →
  road_condition_id road_conditions_df accident_location reported_at g = Ok (id, g') →
  ∃ c, nearest_condition road_conditions_df reported_at = Some c ∧
    id = ConditionID c ∧ g' = g.
Proof.
  intros Hall Hrows. unfold road_condition_id.
  rewrite matching_conditions_all by done.
  unfold pd.labelled. case_decide as Hne.
  - unfold bind, lift.
    destruct (time_diffs _ reported_at) as [diffs|] eqn:Hdiffs; [|done].
    apply time_diffs_inv in Hdiffs as ->.
    pose proof (idxmin_nearest reported_at road_conditions_df 0) as Hmin.
    rewrite (imap_ext pair (λ i c, ((0 + i)%nat, c))) by done.
    destruct (nearest_condition road_conditions_df reported_at) as [c|].
    + destruct Hmin as (p & -> & Hp). unfold pd.iloc. rewrite list_lookup_imap.
      change (0 + p)%nat with p. rewrite Hp. simpl. intros [= <- <-]. by exists c.
    + by rewrite Hmin.
  - apply (f_equal length) in Hne. rewrite length_imap in Hne.
    by destruct road_conditions_df.
Qed.

(** C2: the emitted RoadConditionID is not always that of the nearest
    reading at the accident's location.  [idxmin] yields an index label and
    [iloc] takes a position: with a reading of another location ahead of
    them, the readings at -3 h, -10 min and +1 h make the builder emit the
    id of the +1 h reading, and with the nearest reading last the builder
    raises IndexError.  (When all readings of the batch are at the accident's
    location the lookup, when it returns, does return the nearest one:
    [road_condition_id_nearest].) *)
Theorem nearest_reading_missed (g : Random) :
  (∃ engine' g' fact,
     populate_fact_accidents accident_at_noon
       (dim_location_df accident_at_noon) (dim_date_df accident_at_noon)
       readings_after_another_location empty_engine g = Ok (engine', g') ∧
     Fact_Accidents engine' = [fact] ∧
     f_RoadConditionID fact = Some 4 ∧
     ConditionID <$>
       nearest_condition
         (same_location readings_after_another_location "A") noon
     = Some (Some 3)) ∧
  populate_fact_accidents accident_at_noon
    (dim_location_df accident_at_noon) (dim_date_df accident_at_noon)
    readings_nearest_last empty_engine g = Raise IndexError ∧
  ConditionID <$>
    nearest_condition (same_location readings_nearest_last "A") noon
  = Some (Some 3).
Proof.
  split_and!; [|reflexivity..].
  eexists _, _, _. split; [reflexivity|]. simpl. split_and!; reflexivity.
Qed.

(** C6: in every emitted fact row VehicleID lies in 1..200, and when no
    reading of the batch was taken at the accident's location RoadConditionID
    lies in 1..100, whatever the generator produces.  The emitted rows are,
    in order, those of the grouped rows that are not skipped. *)
Theorem populate_fact_accidents_id_ranges
    (accidents_df : list AccidentRecord) (dim_location_df : list DimLocation)
    (dim_date_df : list DimDate) (road_conditions_df : list RoadConditionRecord)
    (engine : Engine) (g : Random) (engine' : Engine) (g' : Random) :
  populate_fact_accidents accidents_df dim_location_df dim_date_df
    road_conditions_df engine g = Ok (engine', g') →
  Forall (λ fact, 1 ≤ f_VehicleID fact ≤ 200) (Fact_Accidents engine') ∧
  Forall2
    (λ row fact,
       ∀ accident_location,
         g_Location row = Some accident_location →
         Forall (λ c, rc_Location c ≠ Some accident_location) road_conditions_df →
         ∃ r, f_RoadConditionID fact = Some r ∧ 1 ≤ r ≤ 100)
    (filter survives (grouped_accidents accidents_df dim_location_df dim_date_df))
    (Fact_Accidents engine').
Proof.
  intros [_ Hrows]%populate_fact_accidents_emits. split.
  - eapply Forall2_Forall_r; [done|]. apply Forall_forall.
    intros row _ fact Hfact. apply Hfact.
  - eapply Forall2_impl; [done|]. intros row fact Hfact. apply Hfact.
Qed.

Lemma populate_fact_accidents_id_ranges_witness :
  ∃ engine',
    Forall (λ fact, 1 ≤ f_VehicleID fact ≤ 200) (Fact_Accidents engine') ∧
    Forall2
      (λ row fact,
         ∀ accident_location,
           g_Location row = Some accident_location →
           Forall (λ c, rc_Location c ≠ Some accident_location) [reading 1 "B" noon] →
           ∃ r, f_RoadConditionID fact = Some r ∧ 1 ≤ r ≤ 100)
      (filter survives
         (grouped_accidents duplicated_accident
            (dim_location_df duplicated_accident) (dim_date_df duplicated_accident)))
      (Fact_Accidents engine') ∧
    f_RoadConditionID <$> Fact_Accidents engine' = [Some 41].
Proof.
  destruct (populate_fact_accidents_id_ranges duplicated_accident
    (dim_location_df duplicated_accident) (dim_date_df duplicated_accident)
    [reading 1 "B" noon] empty_engine fixed_outcomes _ _ eq_refl) as [Hv Hr].
  eexists. split_and!; [exact Hv|exact Hr|reflexivity].
Defined.

(** ** Severity *)

Lemma severity_score_cases (severity : Cell) :
  let score := dict_get severity_map severity 1 in
  (severity = Some (Str "Minor") → score = 1) ∧
  (severity = Some (Str "Moderate") → score = 2) ∧
  (severity = Some (Str "Severe") → score = 3) ∧
  (severity ∉ [Some (Str "Minor"); Some (Str "Moderate"); Some (Str "Severe")] →
   score = 1) ∧
  score ∈ [1; 2; 3].
Proof.
  assert (∀ x : Z, x ∈ [1; 2; 3] ↔ x = 1 ∨ x = 2 ∨ x = 3) as Hscores.
  { intros x. rewrite !elem_of_cons, elem_of_nil. tauto. }
  simpl. rewrite Hscores, !not_elem_of_cons.
  destruct severity as [[s|z|t]|]; simpl;
    try (split_and!; [done|done|done|tauto|tauto]).
  unfold severity_map. rewrite !lookup_insert, lookup_empty.
  repeat case_decide; subst; simpl; split_and!; (done || tauto || naive_solver).
Qed.

(** C7: the emitted SeverityScore is 1 for Minor, 2 for Moderate, 3 for
    Severe and 1 for every other or missing Severity, hence always one of 1,
    2, 3; and the Severity has no part in whether a row is emitted: with any
    other Severity in its place the row is emitted as well. *)
Theorem fact_row_severity_score
    (road_conditions_df : list RoadConditionRecord) (row : GroupedRow)
    (g : Random) (fact : FactAccident) (g' : Random) :
  fact_row road_conditions_df row g = Ok (Some fact, g') →
  let severity := g_Severity row in
  (severity = Some (Str "Minor") → f_SeverityScore fact = 1) ∧
  (severity = Some (Str "Moderate") → f_SeverityScore fact = 2) ∧
  (severity = Some (Str "Severe") → f_SeverityScore fact = 3) ∧
  (severity ∉ [Some (Str "Minor"); Some (Str "Moderate"); Some (Str "Severe")] →
   f_SeverityScore fact = 1) ∧
  f_SeverityScore fact ∈ [1; 2; 3] ∧
  ∀ severity', ∃ fact',
    fact_row road_conditions_df (with_Severity row severity') g = Ok (Some fact', g').
Proof.
  intros Hrow. simpl.
  assert (f_SeverityScore fact = dict_get severity_map (g_Severity row) 1
          ∧ ∀ severity', ∃ fact',
              fact_row road_conditions_df (with_Severity row severity') g
              = Ok (Some fact', g')) as [-> Hany].
  { unfold fact_row in *. simpl.
    destruct (g_ReportedAt row), (g_Location row); try done.
    unfold bind in *.
    destruct (random.randint 1 200 g) as [[vehicle_id g1]|]; [|done].
    destruct (road_condition_id _ _ _ g1) as [[rc g2]|]; [|done].
    injection Hrow as <- <-. split; [done|]. intros ?. by eexists. }
  pose proof (severity_score_cases (g_Severity row)) as Hcases. simpl in Hcases.
  naive_solver.
Qed.

Lemma fact_row_severity_score_witness :
  ∃ fact g',
    fact_row readings_after_another_location grouped_row_at_noon fixed_outcomes
      = Ok (Some fact, g') ∧
    f_SeverityScore fact = 2 ∧
    f_SeverityScore fact ∈ [1; 2; 3].
Proof.
  assert (∃ fact g',
    fact_row readings_after_another_location grouped_row_at_noon fixed_outcomes
    = Ok (Some fact, g')) as (fact & g' & Hrun)
    by (eexists _, _; vm_compute; reflexivity).
  exists fact, g'. split; [exact Hrun|].
  destruct (fact_row_severity_score _ _ _ _ _ Hrun) as (_ & H2 & _ & _ & Hin & _).
  split; [by apply H2|exact Hin].
Defined.

(** ** Timestamp normalisation *)

Lemma to_datetime_cells_coerce parse_datetime col cells :
  ∃ ts, pd.to_datetime_cells parse_datetime col cells pd.errors_coerce = Ok ts ∧
    Forall2 (λ c t, t = c ≫= parse_datetime col) cells ts.
Proof.
  induction cells as [|c cells (ts & Hts & Hcells)]; simpl.
  - by exists [].
  - rewrite Hts. destruct c as [v|]; simpl.
    + destruct (parse_datetime col v) as [t|] eqn:Hv;
        eexists; (split; [done|]); constructor; simpl; by rewrite ?Hv.
    + eexists. split; [done|]. by constructor.
Qed.

Lemma to_datetime_coerce parse_datetime col :
  ∃ ts, pd.to_datetime parse_datetime col pd.errors_coerce = Ok ts ∧
    Forall2 (λ c t, t = c ≫= parse_datetime col) col ts.
Proof. apply to_datetime_cells_coerce. Qed.

(** With [errors='raise'] a value that is not read does raise. *)
Lemma to_datetime_raise parse_datetime col v :
  Some v ∈ col → parse_datetime col v = None →
  ∃ e, pd.to_datetime parse_datetime col pd.errors_raise = Raise e.
Proof.
  intros Hin Hv. unfold pd.to_datetime.
  assert (∀ cells, Some v ∈ cells →
    ∃ e, pd.to_datetime_cells parse_datetime col cells pd.errors_raise = Raise e)
    as Hcells; [|by apply Hcells].
  clear Hin. intros cells Hin.
  induction cells as [|c cells IH]; [by apply elem_of_nil in Hin|].
  apply elem_of_cons in Hin as [<-|Hin]; simpl.
  - rewrite Hv. by eexists.
  - destruct (pd.to_datetime_cell parse_datetime col pd.errors_raise c); [|by eexists].
    destruct (IH Hin) as [e ->]. by eexists.
Qed.





(** * Further properties of the pipeline *)

(** ** Merges and groups *)

Section merge_left.
Context {L R K : Type} `{EqDecision K} (left_on : L → K) (right_on : R → K).

(** The rows a left merge makes of one left row: at least one, all of them
    carrying that left row. *)
Lemma merge_left_cons l left right :
  ∃ block,
    pd.merge_left left_on right_on (l :: left) right
      = block ++ pd.merge_left left_on right_on left right ∧
    block ≠ [] ∧ Forall (λ x, x.1 = l) block.
Proof.
  unfold pd.merge_left. rewrite bind_cons.
  destruct (filter (λ r, right_on r = left_on l) right) as [|r rs].
  - eexists. split; [done|]. split; [done|]. by repeat constructor.
  - eexists. split; [done|]. split; [done|].
    apply Forall_fmap, Forall_forall. done.
Qed.

Lemma filter_block (P : L → Prop) `{∀ l, Decision (P l)} l (block : list (L * option R)) :
  Forall (λ x, x.1 = l) block →
  filter (λ x, P x.1) block = if decide (P l) then block else [].
Proof.
  induction 1 as [|x block Hx _ IH]; [by case_decide|].
  rewrite filter_cons, IH, Hx. by case_decide.
Qed.

Lemma first_valid_block {A} (col : L → option A) l (block : list (L * option R)) rest :
  block ≠ [] → Forall (λ x, x.1 = l) block →
  pd.first_valid (((λ x, col x.1) <$> block) ++ rest)
  = match col l with Some v => Some v | None => pd.first_valid rest end.
Proof.
  intros Hne Hblock. induction Hblock as [|x block Hx Hblock IH]; [done|].
  simpl. rewrite Hx. destruct (col l); [done|].
  destruct block; [done|]. by apply IH.
Qed.

(** A column of the left frame, read after the merge: within any selection
    by left columns, its first non-null entry is the one before the merge. *)
Lemma merge_left_first_valid {A} (col : L → option A)
    (P : L → Prop) `{∀ l, Decision (P l)} left right :
  pd.first_valid
    ((λ x, col x.1) <$> filter (λ x, P x.1) (pd.merge_left left_on right_on left right))
  = pd.first_valid (col <$> filter P left).
Proof.
  induction left as [|l left IH]; [done|].
  destruct (merge_left_cons l left right) as (block & -> & Hne & Hblock).
  rewrite filter_app, fmap_app, (filter_block P l block Hblock), filter_cons.
  case_decide; [|done].
  rewrite (first_valid_block col l block _ Hne Hblock), IH. simpl.
  by destruct (col l).
Qed.

Lemma elem_of_merge_left_1 x left right :
  x ∈ pd.merge_left left_on right_on left right → x.1 ∈ left.
Proof.
  unfold pd.merge_left. rewrite list_elem_of_bind. intros (l & Hx & Hl).
  destruct (filter _ right) as [|r0 rs].
  - apply list_elem_of_singleton in Hx as ->. done.
  - apply list_elem_of_fmap in Hx as (r' & -> & _). done.
Qed.

Lemma elem_of_merge_left_2 l left right :
  l ∈ left → ∃ x, x ∈ pd.merge_left left_on right_on left right ∧ x.1 = l.
Proof.
  intros Hl. unfold pd.merge_left.
  destruct (filter (λ r, right_on r = left_on l) right) as [|r rs] eqn:Hrs.
  - exists (l, None). split; [|done]. apply list_elem_of_bind.
    exists l. rewrite Hrs. split; [by apply list_elem_of_singleton|done].
  - exists (l, Some r). split; [|done]. apply list_elem_of_bind.
    exists l. rewrite Hrs. split; [|done]. rewrite fmap_cons. apply elem_of_cons. by left.
Qed.

End merge_left.

Lemma filter_fmap {A B} (f : A → B) (P : B → Prop) `{∀ y, Decision (P y)} (l : list A) :
  filter P (f <$> l) = f <$> filter (λ x, P (f x)) l.
Proof.
  induction l as [|x l IH]; [done|].
  rewrite fmap_cons, !filter_cons, IH. by case_decide.
Qed.

(** A column of the accidents frame in the grouped frame: the first
    non-null entry among the records of the batch with that AccidentID, in
    input order, whatever the two dimension frames are. *)
Lemma grouped_first_valid {A} (col : AccidentRecord → option A) (k : Z)
    accidents_df dim_location_df dim_date_df :
  first
    (filter (λ x, AccidentID (col_accident x) = Some k)
       (accidents_with_location
          (accidents_with_date accidents_df dim_date_df) dim_location_df))
    (λ x, col (col_accident x))
  = pd.first_valid (col <$> filter (λ a, AccidentID a = Some k) accidents_df).
Proof.
  unfold first, accidents_with_location, accidents_with_date, col_accident.
  etrans.
  { exact (merge_left_first_valid (λ l : AccidentWithDate, Location l.1.1)
      (λ r : Z * option string, r.2) (λ y : AccidentWithDate, col y.1.1)
      (λ y : AccidentWithDate, AccidentID y.1.1 = Some k) _ _). }
  etrans.
  { exact (merge_left_first_valid (λ l : AccidentRow, l.2)
      (λ r : Z * option date, r.2) (λ y : AccidentRow, col y.1)
      (λ y : AccidentRow, AccidentID y.1 = Some k) _ _). }
  by rewrite filter_fmap, <- list_fmap_compose.
Qed.

Lemma elem_of_merged_accidents a accidents_df dim_location_df dim_date_df :
  a ∈ accidents_df ↔
  ∃ x, x ∈ accidents_with_location
             (accidents_with_date accidents_df dim_date_df) dim_location_df ∧
       col_accident x = a.
Proof.
  unfold accidents_with_location, accidents_with_date, col_accident. split.
  - intros Ha.
    apply (list_elem_of_fmap_2 (λ r, (r, option_map dt_date (ReportedAt r)))) in Ha.
    eapply elem_of_merge_left_2 in Ha as (y & Hy & Hya).
    eapply elem_of_merge_left_2 in Hy as (x & Hx & Hxy).
    exists x. split; [done|]. subst y. exact (f_equal fst Hya).
  - intros (x & Hx & <-).
    apply elem_of_merge_left_1, elem_of_merge_left_1 in Hx.
    apply list_elem_of_fmap in Hx as (a & -> & Ha). done.
Qed.

(** The keys of the grouped frame are the non-null AccidentIDs of the batch. *)
Lemma elem_of_grouped_ids k accidents_df dim_location_df dim_date_df :
  k ∈ g_AccidentID <$> grouped_accidents accidents_df dim_location_df dim_date_df
  ↔ Some k ∈ AccidentID <$> accidents_df.
Proof.
  unfold grouped_accidents. rewrite groupby_AccidentID_first_ids, elem_of_group_keys.
  rewrite !list_elem_of_fmap. split.
  - intros (x & Hk & Hx). exists (col_accident x). split; [done|].
    eapply elem_of_merged_accidents. by exists x.
  - intros (a & Hk & Ha).
    apply (elem_of_merged_accidents a accidents_df dim_location_df dim_date_df)
      in Ha as (x & Hx & <-).
    by exists x.
Qed.

Lemma grouped_accidents_row row accidents_df dim_location_df dim_date_df :
  row ∈ grouped_accidents accidents_df dim_location_df dim_date_df →
  let group := filter (λ a, AccidentID a = Some (g_AccidentID row)) accidents_df in
  g_ReportedAt row = pd.first_valid (ReportedAt <$> group) ∧
  g_Location row = pd.first_valid (Location <$> group) ∧
  g_VehiclesInvolved row = pd.first_valid (VehiclesInvolved <$> group) ∧
  g_Severity row = pd.first_valid (Severity <$> group).
Proof.
  unfold grouped_accidents, groupby_AccidentID_first.
  intros (k & -> & _)%list_elem_of_fmap. simpl.
  split_and!; apply (grouped_first_valid _ k).
Qed.

Lemma is_Some_first_valid {A} (col : list (option A)) :
  is_Some (pd.first_valid col) ↔ ∃ v, Some v ∈ col.
Proof.
  induction col as [|[v|] col IH]; simpl.
  - split; [by intros [? ?]|intros [v Hv]; by apply elem_of_nil in Hv].
  - split; [|done]. intros _. exists v. by left.
  - rewrite IH. split; intros [v Hv]; exists v.
    + by right.
    + by apply elem_of_cons in Hv as [?|?].
Qed.

Lemma StronglySorted_fmap_filter {A} (f : A → Z) (P : A → Prop)
    `{∀ x, Decision (P x)} (l : list A) :
  StronglySorted Z.lt (f <$> l) → StronglySorted Z.lt (f <$> filter P l).
Proof.
  induction l as [|x l IH]; [done|]. rewrite fmap_cons.
  intros [Hl Hx]%StronglySorted_inv. rewrite filter_cons.
  case_decide; [|by apply IH]. rewrite fmap_cons. constructor; [by apply IH|].
  rewrite Forall_forall in Hx. apply Forall_forall. intros y Hy. apply Hx.
  apply list_elem_of_fmap in Hy as (z & -> & Hz%list_elem_of_filter).
  apply list_elem_of_fmap_2. tauto.
Qed.

Lemma Forall2_exists_l {A B} (P : A → B → Prop) (l : list A) (k : list B) :
  Forall2 P l k → Forall (λ y, ∃ x, x ∈ l ∧ P x y) k.
Proof.
  induction 1 as [|x y l k Hxy _ IH]; constructor.
  - exists x. split; [by left|done].
  - eapply Forall_impl; [done|]. intros z (x' & ? & ?). exists x'. split; [by right|done].
Qed.

(** The fact table is written in strictly ascending AccidentID order. *)
Theorem fact_accidents_sorted
    (accidents_df : list AccidentRecord) (dim_location_df : list DimLocation)
    (dim_date_df : list DimDate) (road_conditions_df : list RoadConditionRecord)
    (engine : Engine) (g : Random) (engine' : Engine) (g' : Random) :
  populate_fact_accidents accidents_df dim_location_df dim_date_df
    road_conditions_df engine g = Ok (engine', g') →
  StronglySorted Z.lt (f_AccidentID <$> Fact_Accidents engine').
Proof.
  intros [_ Hrows]%populate_fact_accidents_emits.
  rewrite (emitted_ids _ _ _ Hrows). apply StronglySorted_fmap_filter.
  unfold grouped_accidents. rewrite groupby_AccidentID_first_ids.
  apply group_keys_sorted.
Qed.

Lemma is_Some_group_first_valid {A} (col : AccidentRecord → option A) k accidents_df :
  is_Some (pd.first_valid (col <$> filter (λ a, AccidentID a = Some k) accidents_df))
  ↔ ∃ a, a ∈ accidents_df ∧ AccidentID a = Some k ∧ is_Some (col a).
Proof.
  rewrite is_Some_first_valid. split.
  - intros (v & (a & Hv & [Hk Ha]%list_elem_of_filter)%list_elem_of_fmap).
    exists a. split_and!; [done..|]. by rewrite <- Hv.
  - intros (a & Ha & Hk & [v Hv]). exists v. apply list_elem_of_fmap.
    exists a. split; [done|]. by apply list_elem_of_filter.
Qed.

Theorem fact_accidents_ids
    (accidents_df : list AccidentRecord) (dim_location_df : list DimLocation)
    (dim_date_df : list DimDate) (road_conditions_df : list RoadConditionRecord)
    (engine : Engine) (g : Random) (engine' : Engine) (g' : Random) :
  populate_fact_accidents accidents_df dim_location_df dim_date_df
    road_conditions_df engine g = Ok (engine', g') →
  ∀ k, k ∈ f_AccidentID <$> Fact_Accidents engine' ↔
    (∃ a, a ∈ accidents_df ∧ AccidentID a = Some k ∧ is_Some (ReportedAt a)) ∧
    (∃ a, a ∈ accidents_df ∧ AccidentID a = Some k ∧ is_Some (Location a)).
Proof.
  intros [_ Hrows]%populate_fact_accidents_emits k.
  rewrite (emitted_ids _ _ _ Hrows).
  rewrite <- !is_Some_group_first_valid. split.
  - intros (row & -> & [Hs Hrow]%list_elem_of_filter)%list_elem_of_fmap.
    apply grouped_accidents_row in Hrow as (Ht & Hl & _).
    rewrite <- Ht, <- Hl. exact Hs.
  - intros [Ht Hl].
    assert (Some k ∈ AccidentID <$> accidents_df) as Hk.
    { apply is_Some_group_first_valid in Ht as (a & Ha & <- & _).
      by apply list_elem_of_fmap_2. }
    apply (elem_of_grouped_ids k accidents_df dim_location_df dim_date_df) in Hk.
    apply list_elem_of_fmap in Hk as (row & -> & Hrow).
    apply list_elem_of_fmap_2, list_elem_of_filter. split; [|done].
    apply grouped_accidents_row in Hrow as (Ht' & Hl' & _).
    unfold survives. by rewrite Ht', Hl'.
Qed.

(** VehiclesInvolved and SeverityScore of an emitted row come from the first
    record with that AccidentID that has the field. *)
Theorem fact_accidents_first_valid_fields
    (accidents_df : list AccidentRecord) (dim_location_df : list DimLocation)
    (dim_date_df : list DimDate) (road_conditions_df : list RoadConditionRecord)
    (engine : Engine) (g : Random) (engine' : Engine) (g' : Random) :
  populate_fact_accidents accidents_df dim_location_df dim_date_df
    road_conditions_df engine g = Ok (engine', g') →
  Forall
    (λ fact,
       let records :=
         filter (λ a, AccidentID a = Some (f_AccidentID fact)) accidents_df in
       f_VehiclesInvolved fact = pd.first_valid (VehiclesInvolved <$> records) ∧
       f_SeverityScore fact
         = dict_get severity_map (pd.first_valid (Severity <$> records)) 1)
    (Fact_Accidents engine').
Proof.
  intros [_ Hrows]%populate_fact_accidents_emits.
  eapply Forall_impl; [exact (Forall2_exists_l _ _ _ Hrows)|].
  intros fact (row & [_ Hrow]%list_elem_of_filter & Hfact). simpl.
  apply grouped_accidents_row in Hrow as (_ & _ & Hv & Hs).
  rewrite (emitted_AccidentID _ _ _ Hfact), (emitted_VehiclesInvolved _ _ _ Hfact),
    (emitted_SeverityScore _ _ _ Hfact).
  by rewrite Hv, Hs.
Qed.

(** ** Keys resolved against the dimensions of the same batch *)

Lemma filter_unique_key {A K} `{EqDecision K} (key : A → K) (l : list A) x :
  NoDup (key <$> l) → x ∈ l → filter (λ r, key r = key x) l = [x].
Proof.
  induction l as [|y l IH]; [by intros _ ?%elem_of_nil|].
  rewrite fmap_cons. intros [Hy Hl]%NoDup_cons [->|Hx]%elem_of_cons.
  - rewrite filter_cons_True by done. f_equal. apply filter_none.
    apply Forall_forall. intros z Hz Hk. apply Hy. rewrite <- Hk.
    by apply list_elem_of_fmap_2.
  - rewrite filter_cons_False; [by apply IH|].
    intros Hk. apply Hy. rewrite Hk. by apply list_elem_of_fmap_2.
Qed.

Lemma merge_left_matched {L R K} `{EqDecision K}
    (left_on : L → K) (right_on : R → K) (left : list L) (right : list R) :
  NoDup (right_on <$> right) →
  Forall (λ l, left_on l ∈ right_on <$> right) left →
  Forall2 (λ l x, x.1 = l ∧ ∃ r, x.2 = Some r ∧ r ∈ right ∧ right_on r = left_on l)
    left (pd.merge_left left_on right_on left right).
Proof.
  intros Hkeys. induction 1 as [|l left Hl _ IH]; [constructor|].
  unfold pd.merge_left. rewrite bind_cons.
  apply list_elem_of_fmap in Hl as (r & Hk & Hr). rewrite Hk.
  rewrite (filter_unique_key right_on right r Hkeys Hr). simpl.
  constructor; [|exact IH]. split; [done|]. by exists r.
Qed.

Lemma Forall2_compose {A B C} (P : A → B → Prop) (Q : B → C → Prop) l k m :
  Forall2 P l k → Forall2 Q k m → Forall2 (λ x z, ∃ y, P x y ∧ Q y z) l m.
Proof.
  intros Hlk. revert m. induction Hlk as [|x y l k Hxy _ IH]; intros m Hkm.
  - apply Forall2_nil_inv_l in Hkm as ->. constructor.
  - apply Forall2_cons_inv_l in Hkm as (z & m' & Hyz & Hkm & ->).
    constructor; [by exists y|by apply IH].
Qed.

Lemma first_occurrence_head accidents_df k :
  first_occurrence accidents_df k
  = head (filter (λ a, AccidentID a = Some k) accidents_df).
Proof.
  unfold first_occurrence. induction accidents_df as [|a l IH]; [done|].
  rewrite filter_cons. simpl. case_decide; [done|].
  rewrite <- IH. by destruct (list_find _ l) as [[? ?]|].
Qed.

Lemma merged_accidents_resolved accidents_df :
  Forall2 (resolved accidents_df) accidents_df
    (accidents_with_location
       (accidents_with_date accidents_df (dim_date_df accidents_df))
       (dim_location_df accidents_df)).
Proof.
  unfold accidents_with_location, accidents_with_date.
  set (dates := (λ d, (DateID d, Date d)) <$> dim_date_df accidents_df).
  set (locations := (λ d, (LocationID d, LocationName d)) <$> dim_location_df accidents_df).
  set (rows := (λ r, (r, option_map dt_date (ReportedAt r))) <$> accidents_df).
  assert (Forall2 (λ a (y : AccidentRow), y = (a, option_map dt_date (ReportedAt a)))
            accidents_df rows) as H0.
  { apply Forall2_fmap_r, Forall_Forall2_diag, Forall_forall. done. }
  assert ((λ r : Z * option date, r.2) <$> dates
          = Date <$> dim_date_df accidents_df) as Hdates
    by (unfold dates; by rewrite <- list_fmap_compose).
  assert ((λ r : Z * option string, r.2) <$> locations
          = LocationName <$> dim_location_df accidents_df) as Hlocs
    by (unfold locations; by rewrite <- list_fmap_compose).
  assert (Forall2
    (λ (l : AccidentRow) (x : AccidentWithDate),
       x.1 = l ∧ ∃ r, x.2 = Some r ∧ r ∈ dates ∧ r.2 = l.2)
    rows (pd.merge_left (λ l : AccidentRow, l.2) (λ r : Z * option date, r.2)
            rows dates)) as H1.
  { apply merge_left_matched.
    - rewrite Hdates, dim_date_df_dates. apply NoDup_unique.
    - apply Forall_forall. intros y (a & -> & Ha)%list_elem_of_fmap. simpl.
      rewrite Hdates, dim_date_df_dates. apply elem_of_unique.
      by apply (list_elem_of_fmap_2 (λ r, option_map dt_date (ReportedAt r))). }
  assert (Forall2
    (λ (l : AccidentWithDate) (x : AccidentWithLocation),
       x.1 = l ∧ ∃ r, x.2 = Some r ∧ r ∈ locations ∧ r.2 = Location l.1.1)
    (pd.merge_left (λ l : AccidentRow, l.2) (λ r : Z * option date, r.2) rows dates)
    (pd.merge_left (λ l : AccidentWithDate, Location l.1.1)
       (λ r : Z * option string, r.2)
       (pd.merge_left (λ l : AccidentRow, l.2) (λ r : Z * option date, r.2)
          rows dates) locations)) as H2.
  { apply merge_left_matched.
    - rewrite Hlocs, dim_location_df_names. apply NoDup_unique.
    - apply Forall_forall. intros y Hy. apply elem_of_merge_left_1 in Hy.
      apply list_elem_of_fmap in Hy as (a & Hya & Ha). rewrite Hya. simpl.
      rewrite Hlocs, dim_location_df_names. apply elem_of_unique.
      by apply list_elem_of_fmap_2. }
  pose proof (Forall2_compose _ _ _ _ _ (Forall2_compose _ _ _ _ _ H0 H1) H2) as H.
  eapply Forall2_impl; [exact H|]. clear.
  intros a x (y & (z & -> & Hy1 & (r & Hy2 & Hr & Hrk)) & Hx1 & (r' & Hx2 & Hr' & Hrk')).
  unfold resolved, col_accident, col_DateID, col_LocationID.
  rewrite Hx1, Hy1, Hx2, Hy2. simpl in *. split_and!; [done| |].
  - apply list_elem_of_fmap in Hr as (d & -> & Hd). exists d. by split_and!.
  - apply list_elem_of_fmap in Hr' as (l & -> & Hl). exists l.
    rewrite Hy1 in Hrk'. by split_and!.
Qed.

Lemma grouped_keys_resolved accidents_df row :
  row ∈ grouped_accidents accidents_df
          (dim_location_df accidents_df) (dim_date_df accidents_df) →
  ∃ a d l,
    first_occurrence accidents_df (g_AccidentID row) = Some a ∧
    d ∈ dim_date_df accidents_df ∧ Date d = dt_date <$> ReportedAt a ∧
    g_DateID row = Some (DateID d) ∧
    l ∈ dim_location_df accidents_df ∧ LocationName l = Location a ∧
    g_LocationID row = Some (LocationID l).
Proof.
  intros Hrow.
  assert (g_AccidentID row ∈ g_AccidentID <$> grouped_accidents accidents_df
            (dim_location_df accidents_df) (dim_date_df accidents_df)) as Hk
    by (by apply list_elem_of_fmap_2).
  apply elem_of_grouped_ids in Hk.
  unfold grouped_accidents, groupby_AccidentID_first in Hrow.
  apply list_elem_of_fmap in Hrow as (k & -> & _). simpl in *.
  pose proof (Forall2_filter (resolved accidents_df)
    (λ a, AccidentID a = Some k) (λ x, AccidentID (col_accident x) = Some k)
    _ _ ltac:(by intros a x [<- _]) (merged_accidents_resolved accidents_df)) as Hgroup.
  rewrite first_occurrence_head.
  destruct (filter (λ a, AccidentID a = Some k) accidents_df) as [|a0 group] eqn:Hfilter.
  { exfalso. apply list_elem_of_fmap in Hk as (a & Hka & Ha).
    assert (a ∈ filter (λ a, AccidentID a = Some k) accidents_df) as Hin
      by (by apply list_elem_of_filter).
    rewrite Hfilter in Hin. by apply elem_of_nil in Hin. }
  apply Forall2_cons_inv_l in Hgroup as (x0 & merged & Hx0 & _ & Hmerged).
  rewrite Hmerged. unfold first. rewrite !fmap_cons.
  destruct Hx0 as (_ & (d & Hd & Hdate & ->) & (l & Hl & Hname & ->)).
  exists a0, d, l. by split_and!.
Qed.

(** With the dimensions built from the same batch, as the driver does, the
    DateID and the LocationID of every fact row are those of the date and
    the location of the first record with that AccidentID. *)
Theorem fact_accidents_keys_resolved
    (accidents_df : list AccidentRecord)
    (road_conditions_df : list RoadConditionRecord)
    (engine : Engine) (g : Random) (engine' : Engine) (g' : Random) :
  populate_fact_accidents accidents_df
    (dim_location_df accidents_df) (dim_date_df accidents_df)
    road_conditions_df engine g = Ok (engine', g') →
  Forall
    (λ fact, ∃ a d l,
       first_occurrence accidents_df (f_AccidentID fact) = Some a ∧
       d ∈ dim_date_df accidents_df ∧ Date d = dt_date <$> ReportedAt a ∧
       f_DateID fact = Some (DateID d) ∧
       l ∈ dim_location_df accidents_df ∧ LocationName l = Location a ∧
       f_LocationID fact = Some (LocationID l))
    (Fact_Accidents engine').
Proof.
  intros [_ Hrows]%populate_fact_accidents_emits.
  eapply Forall_impl; [exact (Forall2_exists_l _ _ _ Hrows)|].
  intros fact (row & [_ Hrow]%list_elem_of_filter & Hfact). simpl.
  destruct (grouped_keys_resolved _ _ Hrow) as (a & d & l & Ha & Hd & Hdate & Hid & Hl & Hname & Hlid).
  exists a, d, l.
  rewrite (emitted_AccidentID _ _ _ Hfact), (emitted_DateID _ _ _ Hfact),
    (emitted_LocationID _ _ _ Hfact).
  by split_and!.
Qed.

(** ** Where a RoadConditionID comes from *)

Lemma elem_of_labelled {A} (rows : list A) i x :
  (i, x) ∈ pd.labelled rows ↔ rows !! i = Some x.
Proof.
  unfold pd.labelled. rewrite list_elem_of_lookup. split.
  - intros [j Hj]. rewrite list_lookup_imap in Hj.
    destruct (rows !! j) eqn:Hx; [|done]. by injection Hj as <- <-.
  - intros Hx. exists i. by rewrite list_lookup_imap, Hx.
Qed.

Lemma matching_conditions_nil_inv road_conditions_df accident_location :
  matching_conditions road_conditions_df accident_location = [] →
  no_reading_at road_conditions_df accident_location.
Proof.
  unfold matching_conditions, no_reading_at. intros Hnil.
  apply Forall_forall. intros c [i Hc]%list_elem_of_lookup Hloc.
  apply (filter_nil_not_elem_of _ _ (i, c) Hnil); [done|].
  by apply elem_of_labelled.
Qed.


(** An emitted row took one draw for its VehicleID and then looked up its
    RoadConditionID. *)
Lemma fact_row_inv road_conditions_df row g fact g' :
  fact_row road_conditions_df row g = Ok (Some fact, g') →
  ∃ reported_at accident_location g1,
    g_ReportedAt row = Some reported_at ∧
    g_Location row = Some accident_location ∧
    random.randint 1 200 g = Ok (f_VehicleID fact, g1) ∧
    road_condition_id road_conditions_df accident_location reported_at g1
      = Ok (f_RoadConditionID fact, g').
Proof.
  unfold fact_row.
  destruct (g_ReportedAt row) as [t|], (g_Location row) as [loc|]; try done.
  unfold bind at 1.
  destruct (random.randint 1 200 g) as [[vehicle_id g1]|] eqn:Hv; [|done].
  unfold bind at 1.
  destruct (road_condition_id _ _ _ g1) as [[rc g2]|] eqn:Hrc; [|done].
  intros [= <- <-]. by exists t, loc, g1.
Qed.

Lemma iterrows_Forall2 (Q : GroupedRow → FactAccident → Prop)
    road_conditions_df rows fact_accidents_data g facts g' :
  (∀ row g fact g', row ∈ rows →
     fact_row road_conditions_df row g = Ok (Some fact, g') → Q row fact) →
  iterrows road_conditions_df rows fact_accidents_data g = Ok (facts, g') →
  ∃ new, facts = fact_accidents_data ++ new ∧
    Forall2 Q (filter survives rows) new.
Proof.
  revert fact_accidents_data g.
  induction rows as [|row rows IH]; intros data g HQ; simpl.
  - intros [= <- <-]. exists []. by rewrite app_nil_r.
  - unfold bind at 1.
    destruct (fact_row road_conditions_df row g) as [[emitted g1]|] eqn:Hrow; [|done].
    intros Hrest. apply IH in Hrest as (new & -> & Hnew);
      [|intros ???? Hin; apply HQ; by right].
    rewrite filter_cons. case_decide as Hs.
    + destruct (fact_row_emits _ _ _ _ _ Hs Hrow) as (fact & -> & _).
      exists (fact :: new). rewrite <- app_assoc. split; [done|].
      constructor; [|done]. eapply HQ; [by left|done].
    + rewrite fact_row_skips in Hrow by done. injection Hrow as <- <-.
      by exists new.
Qed.


(** ** The draws, and the lookup among readings at one location *)

Lemma fact_row_fallback road_conditions_df row reported_at accident_location g :
  g_ReportedAt row = Some reported_at →
  g_Location row = Some accident_location →
  no_reading_at road_conditions_df accident_location →
  ∃ fact g',
    fact_row road_conditions_df row g = Ok (Some fact, g') ∧
    outcomes g' = outcomes g ∧ drawn g' = S (S (drawn g)).
Proof.
  intros Ht Hl Hno. unfold fact_row, road_condition_id. rewrite Ht, Hl.
  rewrite (matching_conditions_nil _ _ Hno). by eexists _, _.
Qed.

Lemma iterrows_without_readings road_conditions_df rows :
  (∀ row accident_location, row ∈ rows →
     g_Location row = Some accident_location →
     no_reading_at road_conditions_df accident_location) →
  ∀ fact_accidents_data g,
    ∃ new g',
      iterrows road_conditions_df rows fact_accidents_data g
        = Ok (fact_accidents_data ++ new, g') ∧
      outcomes g' = outcomes g ∧
      drawn g' = (drawn g + 2 * length new)%nat.
Proof.
  induction rows as [|row rows IH]; intros Hrows data g; simpl.
  - exists [], g. rewrite app_nil_r. split_and!; [done..|simpl; lia].
  - unfold bind at 1. destruct (decide (survives row)) as [[[t Ht] [loc Hl]]|Hs].
    + destruct (fact_row_fallback road_conditions_df row t loc g Ht Hl)
        as (fact & g1 & -> & Ho & Hd); [by eapply Hrows; [left|]|].
      destruct (IH (λ r l Hr, Hrows r l (list_elem_of_further _ _ _ Hr))
                  (data ++ [fact]) g1) as (new & g' & -> & Ho' & Hd').
      exists (fact :: new), g'. rewrite <- app_assoc. split_and!; [done|congruence|].
      rewrite Hd', Hd. simpl. lia.
    + rewrite fact_row_skips by done.
      apply IH. intros r l Hr. apply Hrows. by right.
Qed.

Lemma grouped_location_in_batch accidents_df dim_location_df dim_date_df row l :
  row ∈ grouped_accidents accidents_df dim_location_df dim_date_df →
  g_Location row = Some l →
  ∃ a, a ∈ accidents_df ∧ Location a = Some l.
Proof.
  intros (_ & Hl & _)%grouped_accidents_row Hloc. rewrite Hl in Hloc.
  assert (Some l ∈ Location <$> filter
    (λ a, AccidentID a = Some (g_AccidentID row)) accidents_df) as Hin.
  { clear Hl. induction (Location <$> filter _ accidents_df) as [|[v|] col IH];
      simpl in Hloc; [done| |].
    - injection Hloc as ->. by left.
    - right. by apply IH. }
  apply list_elem_of_fmap in Hin as (a & Ha & [_ Hin]%list_elem_of_filter).
  by exists a.
Qed.

(** When the batch has no reading at the location of any accident and the
    fact builder returns, the generator has been asked for exactly two
    numbers per emitted row and for none for a skipped row, and every
    RoadConditionID is a number of 1..100. *)
Theorem populate_fact_accidents_without_readings
    (accidents_df : list AccidentRecord) (dim_location_df : list DimLocation)
    (dim_date_df : list DimDate) (road_conditions_df : list RoadConditionRecord)
    (engine : Engine) (g : Random) (engine' : Engine) (g' : Random) :
  Forall
    (λ a, ∀ accident_location,
       Location a = Some accident_location →
       Forall (λ c, rc_Location c ≠ Some accident_location) road_conditions_df)
    accidents_df →
  populate_fact_accidents accidents_df dim_location_df dim_date_df
    road_conditions_df engine g = Ok (engine', g') →
  outcomes g' = outcomes g ∧
  drawn g' = (drawn g + 2 * length (Fact_Accidents engine'))%nat ∧
  Forall (λ fact, ∃ r, f_RoadConditionID fact = Some r ∧ 1 ≤ r ≤ 100)
    (Fact_Accidents engine').
Proof.
  intros Hno Hrun.
  assert (∀ row accident_location,
    row ∈ grouped_accidents accidents_df dim_location_df dim_date_df →
    g_Location row = Some accident_location →
    no_reading_at road_conditions_df accident_location) as Hrows.
  { intros row l Hrow Hl.
    destruct (grouped_location_in_batch _ _ _ _ _ Hrow Hl) as (a & Ha & Hal).
    rewrite Forall_forall in Hno. by apply (Hno a Ha). }
  pose proof (populate_fact_accidents_emits _ _ _ _ _ _ _ _ Hrun) as [_ Hemitted].
  apply populate_fact_accidents_inv in Hrun as (facts & Hloop & _ & ->).
  destruct (iterrows_without_readings road_conditions_df _ Hrows [] g)
    as (new & g1 & Hloop' & Ho & Hd).
  rewrite Hloop in Hloop'. injection Hloop' as -> ->. simpl in *.
  split_and!; [done..|].
  eapply Forall_impl; [exact (Forall2_exists_l _ _ _ Hemitted)|].
  intros fact (row & [[_ [l Hl]] Hrow]%list_elem_of_filter & Hfact). simpl.
  by eapply (emitted_fallback _ _ _ Hfact), Hrows.
Qed.

(** When all readings of the batch were taken at one location and the fact
    builder returns, every accident at that location has the ConditionID of
    a reading whose distance to the accident's ReportedAt is minimal, the
    first such reading of the batch. *)
Theorem populate_fact_accidents_single_location
    (accidents_df : list AccidentRecord) (dim_location_df : list DimLocation)
    (dim_date_df : list DimDate) (road_conditions_df : list RoadConditionRecord)
    (location : string) (engine : Engine) (g : Random)
    (engine' : Engine) (g' : Random) :
  Forall (λ c, rc_Location c = Some location) road_conditions_df →
  road_conditions_df ≠ [] →
  populate_fact_accidents accidents_df dim_location_df dim_date_df
    road_conditions_df engine g = Ok (engine', g') →
  Forall
    (λ fact,
       let records :=
         filter (λ a, AccidentID a = Some (f_AccidentID fact)) accidents_df in
       pd.first_valid (Location <$> records) = Some location →
       ∃ reported_at c p tc,
         pd.first_valid (ReportedAt <$> records) = Some reported_at ∧
         road_conditions_df !! p = Some c ∧ RecordedAt c = Some tc ∧
         f_RoadConditionID fact = ConditionID c ∧
         ∀ q c' t', road_conditions_df !! q = Some c' → RecordedAt c' = Some t' →
           Z.abs (tc - reported_at) ≤ Z.abs (t' - reported_at) ∧
           ((q < p)%nat → Z.abs (tc - reported_at) < Z.abs (t' - reported_at)))
    (Fact_Accidents engine').
Proof.
  intros Hall Hrows (facts & Hloop & _ & ->)%populate_fact_accidents_inv. simpl.
  eapply (iterrows_Forall2 (λ row fact,
    row ∈ grouped_accidents accidents_df dim_location_df dim_date_df ∧
    f_AccidentID fact = g_AccidentID row ∧
    ∃ t loc g1 g2, g_ReportedAt row = Some t ∧ g_Location row = Some loc ∧
      road_condition_id road_conditions_df loc t g1 = Ok (f_RoadConditionID fact, g2)))
    in Hloop as (new & -> & Hnew).
  - eapply Forall_impl; [exact (Forall2_exists_l _ _ _ Hnew)|].
    intros fact (row & _ & Hrow & Hid & t & loc & g1 & g2 & Ht & Hl & Hrc). simpl.
    apply grouped_accidents_row in Hrow as (Ht' & Hl' & _).
    rewrite Hid, <- Hl', Hl. intros [= ->].
    apply road_condition_id_nearest in Hrc as (c & Hc & Hrc & _); [|done..].
    destruct (nearest_condition_minimal _ _ _ Hc) as (p & tc & Hp & Htc & Hmin).
    exists t, c, p, tc. split; [|done]. etrans; [symmetry; exact Ht'|exact Ht].
  - intros row g0 fact g0' Hin Hrow. split; [done|].
    assert (f_AccidentID fact = g_AccidentID row) as Hid.
    { unfold fact_row in Hrow.
      destruct (g_ReportedAt row), (g_Location row); try done.
      unfold bind in Hrow.
      destruct (random.randint 1 200 g0) as [[? ?]|]; [|done].
      destruct (road_condition_id _ _ _ _) as [[? ?]|]; [|done].
      by injection Hrow as <- _. }
    split; [done|].
    apply fact_row_inv in Hrow as (t & loc & g1 & Ht & Hl & _ & Hrc).
    by exists t, loc, g1, g0'.
Qed.

(** ** Loading the workbook *)

Lemma read_sheets_present (excel_data : Workbook) sheets (data : gmap string DataFrame) :
  Forall (λ sheet, is_Some (excel_data !! sheet)) sheets →
  ∃ data', read_sheets excel_data sheets data = Loaded data' ∧
    ∀ sheet, data' !! sheet
      = if decide (sheet ∈ sheets) then excel_data !! sheet else data !! sheet.
Proof.
  intros Hall. revert data.
  induction Hall as [|s sheets Hs _ IH]; intros data; [|destruct Hs as [df Hs]].
  - exists data. split; [done|]. intros sheet.
    by rewrite decide_False by apply not_elem_of_nil.
  - simpl. unfold read_excel. rewrite Hs.
    destruct (IH (<[s := df]> data)) as (data' & -> & Hdata').
    exists data'. split; [done|]. intros sheet. rewrite Hdata'.
    destruct (decide (sheet = s)) as [->|Hne].
    + rewrite lookup_insert_eq, Hs.
      rewrite (decide_True (P := s ∈ s :: sheets)) by (by left).
      by case_decide.
    + rewrite lookup_insert_ne by done.
      destruct (decide (sheet ∈ sheets)) as [Hin|Hin].
      * by rewrite decide_True by (by right).
      * rewrite decide_False; [done|]. by intros [?|?]%elem_of_cons.
Qed.

Lemma filter_missing_nil (excel_data : Workbook) (sheets : list string) :
  filter (λ sheet, excel_data !! sheet = None) sheets = [] ↔
  Forall (λ sheet, is_Some (excel_data !! sheet)) sheets.
Proof.
  induction sheets as [|s sheets IH]; [by split; [constructor|]|].
  rewrite filter_cons, Forall_cons. destruct (excel_data !! s) eqn:Hs.
  - rewrite decide_False by done. rewrite IH. split; [by split|tauto].
  - rewrite decide_True by done. split; [done|]. intros [[? [=]] _].
Qed.

(** [load_excel_file] returns exactly when the path holds a workbook that
    [pd.ExcelFile] opens and that has every required sheet; the dictionary
    then holds the required sheets, each with its frame, and no other sheet
    of the workbook. *)
Theorem load_excel_file_returns
    (fs : FileSystem) (file_path : string) (required_sheets : list string)
    (data : gmap string DataFrame) :
  load_excel_file fs file_path required_sheets = Loaded data ↔
  ∃ excel_data : Workbook,
    fs !! file_path = Some (is_workbook excel_data) ∧
    (∀ sheet, sheet ∈ required_sheets → is_Some (excel_data !! sheet)) ∧
    (∀ sheet, data !! sheet
       = if decide (sheet ∈ required_sheets) then excel_data !! sheet else None).
Proof.
  unfold load_excel_file. split.
  - destruct (fs !! file_path) as [[wb|err]|]; [|done..]. simpl.
    case_decide as Hm; [done|]. intros Hread.
    assert (Forall (λ sheet, is_Some (wb !! sheet)) required_sheets) as Hall.
    { apply filter_missing_nil. by destruct (filter _ required_sheets). }
    exists wb. split; [done|]. split; [by apply Forall_forall|].
    destruct (read_sheets_present wb required_sheets ∅ Hall) as (data' & Hd & Hdata').
    rewrite Hd in Hread. injection Hread as <-. intros sheet. rewrite Hdata'.
    by rewrite lookup_empty.
  - intros (wb & -> & Hall & Hdata). simpl.
    apply Forall_forall in Hall.
    rewrite (proj2 (filter_missing_nil wb required_sheets) Hall).
    rewrite decide_False by (by intros []).
    destruct (read_sheets_present wb required_sheets ∅ Hall) as (data' & -> & Hdata').
    f_equal. apply map_eq. intros sheet. rewrite Hdata', Hdata.
    by rewrite lookup_empty.
Qed.

(** [load_excel_file] raises [FileNotFoundError] exactly for a path that
    does not exist, and the exception of [pd.ExcelFile] exactly for a path
    that exists and is no workbook it opens, in both cases whatever sheets
    are required; for a workbook it raises only the [ValueError] of the
    sheet check, which lists the required sheets the workbook lacks, in the
    order in which they are required.  [pd.read_excel] is never reached for
    a sheet that is not there. *)
Theorem load_excel_file_raises
    (fs : FileSystem) (file_path : string) (required_sheets : list string)
    (e : load_exception) :
  load_excel_file fs file_path required_sheets = LoadError e ↔
  (fs !! file_path = None ∧ e = FileNotFoundError file_path)
  ∨ (∃ err, fs !! file_path = Some (no_workbook err) ∧ e = ExcelFile_raised err)
  ∨ (∃ excel_data : Workbook,
       fs !! file_path = Some (is_workbook excel_data) ∧
       filter (λ sheet, excel_data !! sheet = None) required_sheets ≠ [] ∧
       e = ValueError_missing_sheets
             (filter (λ sheet, excel_data !! sheet = None) required_sheets)).
Proof.
  unfold load_excel_file. destruct (fs !! file_path) as [[wb|err]|]; simpl.
  - case_decide as Hm.
    + split.
      * intros [= <-]. right. right. by exists wb.
      * intros [[[=] _]|[(err & [=] & _)|(wb' & [= <-] & _ & ->)]]. done.
    + split.
      * intros Hread. exfalso.
        assert (Forall (λ sheet, is_Some (wb !! sheet)) required_sheets) as Hall.
        { apply filter_missing_nil. by destruct (filter _ required_sheets). }
        destruct (read_sheets_present wb required_sheets ∅ Hall) as (data' & Hd & _).
        by rewrite Hd in Hread.
      * intros [[[=] _]|[(err & [=] & _)|(wb' & [= <-] & Hne & _)]]. done.
  - split.
    + intros [= <-]. right. left. by exists err.
    + intros [[[=] _]|[(err' & [= <-] & ->)|(wb' & [=] & _)]]. done.
  - split.
    + intros [= <-]. by left.
    + intros [[_ ->]|[(err & [=] & _)|(wb' & [=] & _)]]. done.
Qed.

(** ** Timestamp normalisation, again *)

Lemma to_datetime_stamps parse_datetime (ts : list (option Timestamp)) errors :
  (∀ col t, Forall (λ c, c = None ∨ ∃ t', c = Some (Stamp t')) col →
     parse_datetime col (Stamp t) = Some t) →
  pd.to_datetime parse_datetime
    ((fmap Stamp : option Timestamp → Cell) <$> ts) errors = Ok ts.
Proof.
  intros Hparse. unfold pd.to_datetime.
  set (col := (fmap Stamp : option Timestamp → Cell) <$> ts).
  assert (Forall (λ c, c = None ∨ ∃ t', c = Some (Stamp t')) col) as Hcol.
  { apply Forall_fmap, Forall_forall. intros [t|] _; simpl; [right; by exists t|by left]. }
  assert (∀ ts', pd.to_datetime_cells parse_datetime col
    ((fmap Stamp : option Timestamp → Cell) <$> ts') errors = Ok ts') as Hcells;
    [|apply Hcells].
  intros ts'. induction ts' as [|[t|] ts' IH]; [done|..];
    rewrite fmap_cons; simpl; rewrite ?(Hparse col t Hcol); simpl; by rewrite IH.
Qed.

(** Normalising a column twice is normalising it once, for a parser that
    reads a timestamp, in a column of timestamps and nulls, as itself. *)
Theorem convert_timestamps_idempotent
    (parse_datetime : list Cell → Scalar → option Timestamp)
    (df df' : DataFrame) (column : string) :
  (∀ col t, Forall (λ c, c = None ∨ ∃ t', c = Some (Stamp t')) col →
     parse_datetime col (Stamp t) = Some t) →
  convert_timestamps parse_datetime df column = Ok df' →
  convert_timestamps parse_datetime df' column = Ok df'.
Proof.
  intros Hparse. unfold convert_timestamps.
  destruct (df !! column) as [col|]; [|done].
  destruct (pd.to_datetime parse_datetime col pd.errors_coerce) as [ts|]; [|done].
  intros [= <-]. rewrite lookup_insert_eq, (to_datetime_stamps _ _ _ Hparse).
  by rewrite insert_insert_eq.
Qed.

(** The normalisation fails only for a column the frame does not have, with
    KeyError; otherwise it keeps every other column and the number of rows,
    and leaves nothing but timestamps and nulls in the column. *)
Theorem convert_timestamps_frame
    (parse_datetime : list Cell → Scalar → option Timestamp)
    (df : DataFrame) (column : string) :
  match convert_timestamps parse_datetime df column with
  | Raise e => df !! column = None ∧ e = KeyError
  | Ok df' =>
      (∀ other, other ≠ column → df' !! other = df !! other) ∧
      ∃ col col',
        df !! column = Some col ∧ df' !! column = Some col' ∧
        length col' = length col ∧
        Forall (λ c, c = None ∨ ∃ t, c = Some (Stamp t)) col'
  end.
Proof.
  unfold convert_timestamps. destruct (df !! column) as [col|] eqn:Hcol; [|done].
  destruct (to_datetime_coerce parse_datetime col) as (ts & -> & Hts).
  split.
  - intros other Hne. by rewrite lookup_insert_ne.
  - exists col, ((fmap Stamp : option Timestamp → Cell) <$> ts).
    rewrite lookup_insert_eq.
    split_and!; [done..| |].
    + rewrite length_fmap. symmetry. by eapply Forall2_length.
    + apply Forall_fmap, Forall_forall. intros [t|] _; simpl; [right; by exists t|by left].
Qed.

(** ** The date dimension's Time *)

(** The date builder never fails, and no Time of the table it returns and
    stores has a time of day: it is the row's Date at 00:00. *)
Theorem populate_dim_date_time_of_day
    (accidents_df : list AccidentRecord) (engine : Engine) :
  ∃ df engine',
    populate_dim_date accidents_df engine = Ok (df, engine') ∧
    Dim_Date engine' = df ∧
    Forall
      (λ row,
         (Time row = None ↔ Date row = None) ∧
         ∀ t, Time row = Some t →
           t `mod` ns_per_day = 0 ∧ Date row = Some (dt_date t))
      df.
Proof.
  eexists _, _. split; [reflexivity|]. split; [reflexivity|].
  eapply Forall_impl; [apply dim_date_df_rows|].
  intros row (_ & _ & Htime). rewrite Htime.
  destruct (Date row) as [d|]; simpl.
  - split; [done|]. intros t [= <-].
    split; [by apply Z.mod_mul|by rewrite dt_date_date_to_datetime].
  - done.
Qed.

(** ** The tables after steps 5 and 6 *)

(** When the dimension step returns, its tables are those of the four
    frames, written one after the other. *)
Lemma populate_dimensions_inv
    vehicles_df accidents_df road_conditions_df engine dimensions engine' :
  populate_dimensions vehicles_df accidents_df road_conditions_df engine
    = Ok (dimensions, engine') →
  dimensions
    = {| dim_location := dim_location_df accidents_df;
         dim_vehicle := dim_vehicle_df vehicles_df;
         dim_road_condition := dim_road_condition_df road_conditions_df;
         dim_date := dim_date_df accidents_df |} ∧
  engine'
    = to_sql_Dim_Date (dim_date_df accidents_df)
        (to_sql_Dim_RoadCondition (dim_road_condition_df road_conditions_df)
           (to_sql_Dim_Vehicle (dim_vehicle_df vehicles_df)
              (to_sql_Dim_Location (dim_location_df accidents_df) engine))).
Proof.
  unfold populate_dimensions, populate_dim_location, populate_dim_vehicle,
    populate_dim_road_condition, populate_dim_date, and_then.
  destruct (to_sql_integer_column (omap v_VehicleID _)); [|done].
  destruct (to_sql_integer_column (omap ConditionID _)); [|done].
  by intros [= <- <-].
Qed.

(** When steps 5 and 6 of the driver return, the database holds the four
    dimension tables as the builders made them from the batches, and every
    stored fact row has a DateID and a LocationID that are keys of the
    stored Dim_Date and Dim_Location. *)
Theorem populate_tables_referential_integrity
    (vehicles_df : list VehicleRecord) (accidents_df : list AccidentRecord)
    (road_conditions_df : list RoadConditionRecord)
    (engine : Engine) (g : Random) (engine' : Engine) (g' : Random) :
  populate_tables vehicles_df accidents_df road_conditions_df engine g
    = Ok (engine', g') →
  Dim_Location engine' = dim_location_df accidents_df ∧
  Dim_Vehicle engine' = dim_vehicle_df vehicles_df ∧
  Dim_RoadCondition engine' = dim_road_condition_df road_conditions_df ∧
  Dim_Date engine' = dim_date_df accidents_df ∧
  Forall
    (λ fact,
       (∃ d, d ∈ Dim_Date engine' ∧ f_DateID fact = Some (DateID d)) ∧
       (∃ l, l ∈ Dim_Location engine' ∧ f_LocationID fact = Some (LocationID l)))
    (Fact_Accidents engine').
Proof.
  unfold populate_tables, bind, lift.
  destruct (populate_dimensions _ _ _ _) as [[dims engine1]|] eqn:Hdims; [|done].
  apply populate_dimensions_inv in Hdims as [-> ->]. simpl.
  intros [-> Hrows]%populate_fact_accidents_emits. simpl.
  split_and!; [done..|].
  eapply Forall_impl; [exact (Forall2_exists_l _ _ _ Hrows)|].
  intros fact (row & [_ Hrow]%list_elem_of_filter & Hfact). simpl.
  destruct (grouped_keys_resolved _ _ Hrow)
    as (a & d & l & _ & Hd & _ & Hid & Hl & _ & Hlid).
  rewrite (emitted_DateID _ _ _ Hfact), (emitted_LocationID _ _ _ Hfact).
  split; [by exists d|by exists l].
Qed.

(** ** Running steps 5 and 6 again *)

(** A lookup that finds readings at the location does not ask the
    generator: its outcome is the same in any state of it. *)
Lemma road_condition_id_matched
    road_conditions_df accident_location reported_at g id g' g2 :
  matching_conditions road_conditions_df accident_location ≠ [] →
  road_condition_id road_conditions_df accident_location reported_at g = Ok (id, g') →
  road_condition_id road_conditions_df accident_location reported_at g2 = Ok (id, g2).
Proof.
  intros Hm. unfold road_condition_id. rewrite decide_True by done.
  unfold bind, lift.
  destruct (time_diffs _ _) as [diffs|]; [|done].
  destruct (pd.idxmin _) as [label|]; [|done].
  destruct (pd.iloc _ _) as [closest_match|]; [|done].
  by intros [= <- _].
Qed.

Lemma Forall2_same_l {A B} (P : A → B → Prop) (l : list A) (k1 k2 : list B) :
  Forall2 P l k1 → Forall2 P l k2 →
  Forall2 (λ y1 y2, ∃ x, P x y1 ∧ P x y2) k1 k2.
Proof.
  intros H1. revert k2. induction H1 as [|x y1 l k1 Hy1 _ IH]; intros k2 H2.
  - apply Forall2_nil_inv_l in H2 as ->. constructor.
  - apply Forall2_cons_inv_l in H2 as (y2 & k2' & Hy2 & H2 & ->).
    constructor; [by exists x|by apply IH].
Qed.

(** Two runs of steps 5 and 6 on the same batches, from any two states of
    the database and of the generator.  When both return, they leave the
    same four dimension tables, and fact tables with the same accidents in
    the same order: corresponding rows agree on AccidentID, DateID,
    LocationID, VehiclesInvolved and SeverityScore, and on RoadConditionID
    too unless the batch has no reading at the accident's location.  Only
    the drawn fields can differ. *)
Theorem populate_tables_rerun
    (vehicles_df : list VehicleRecord) (accidents_df : list AccidentRecord)
    (road_conditions_df : list RoadConditionRecord)
    (engine1 engine2 : Engine) (g1 g2 : Random)
    (engine1' engine2' : Engine) (g1' g2' : Random) :
  populate_tables vehicles_df accidents_df road_conditions_df engine1 g1
    = Ok (engine1', g1') →
  populate_tables vehicles_df accidents_df road_conditions_df engine2 g2
    = Ok (engine2', g2') →
  Dim_Location engine1' = Dim_Location engine2' ∧
  Dim_Vehicle engine1' = Dim_Vehicle engine2' ∧
  Dim_RoadCondition engine1' = Dim_RoadCondition engine2' ∧
  Dim_Date engine1' = Dim_Date engine2' ∧
  Forall2
    (λ fact1 fact2,
       f_AccidentID fact1 = f_AccidentID fact2 ∧
       f_DateID fact1 = f_DateID fact2 ∧
       f_LocationID fact1 = f_LocationID fact2 ∧
       f_VehiclesInvolved fact1 = f_VehiclesInvolved fact2 ∧
       f_SeverityScore fact1 = f_SeverityScore fact2 ∧
       (f_RoadConditionID fact1 = f_RoadConditionID fact2
        ∨ ∃ accident_location,
            pd.first_valid
              (Location <$>
               filter (λ a, AccidentID a = Some (f_AccidentID fact1)) accidents_df)
            = Some accident_location ∧
            Forall (λ c, rc_Location c ≠ Some accident_location) road_conditions_df))
    (Fact_Accidents engine1') (Fact_Accidents engine2').
Proof.
  assert (∀ engine g engine' g',
    populate_tables vehicles_df accidents_df road_conditions_df engine g
      = Ok (engine', g') →
    (Dim_Location engine' = dim_location_df accidents_df ∧
     Dim_Vehicle engine' = dim_vehicle_df vehicles_df ∧
     Dim_RoadCondition engine' = dim_road_condition_df road_conditions_df ∧
     Dim_Date engine' = dim_date_df accidents_df) ∧
    Forall2
      (λ row fact,
         row ∈ grouped_accidents accidents_df
                 (dim_location_df accidents_df) (dim_date_df accidents_df) ∧
         emitted_for road_conditions_df row fact ∧
         ∃ t loc ga gb, g_ReportedAt row = Some t ∧ g_Location row = Some loc ∧
           road_condition_id road_conditions_df loc t ga
             = Ok (f_RoadConditionID fact, gb))
      (filter survives
         (grouped_accidents accidents_df
            (dim_location_df accidents_df) (dim_date_df accidents_df)))
      (Fact_Accidents engine')) as Hrun.
  { intros engine g engine' g'. unfold populate_tables, bind, lift.
    destruct (populate_dimensions _ _ _ _) as [[dims engine0]|] eqn:Hdims; [|done].
    apply populate_dimensions_inv in Hdims as [-> ->]. simpl.
    intros (facts & Hloop & _ & ->)%populate_fact_accidents_inv. simpl.
    split; [done|].
    eapply iterrows_Forall2 in Hloop as (new & -> & Hnew); [exact Hnew|].
    intros row g0 fact g0' Hin Hrow. split; [done|].
    assert (survives row) as Hs.
    { apply dec_stable. intros Hs. by rewrite fact_row_skips in Hrow. }
    destruct (fact_row_emits _ _ _ _ _ Hs Hrow) as (fact' & [= <-] & Hfact).
    split; [done|].
    apply fact_row_inv in Hrow as (t & loc & ga & Ht & Hl & _ & Hrc).
    by exists t, loc, ga, g0'. }
  intros [(Hl1 & Hv1 & Hc1 & Hd1) Hrows1]%Hrun [(Hl2 & Hv2 & Hc2 & Hd2) Hrows2]%Hrun.
  split_and!; [congruence..|].
  eapply Forall2_impl; [exact (Forall2_same_l _ _ _ _ Hrows1 Hrows2)|].
  intros fact1 fact2 (row & (Hrow & H1 & t1 & loc1 & ga1 & gb1 & Ht1 & Hloc1 & Hrc1)
                          & (_ & H2 & t2 & loc2 & ga2 & gb2 & Ht2 & Hloc2 & Hrc2)).
  split_and!.
  - by rewrite (emitted_AccidentID _ _ _ H1), (emitted_AccidentID _ _ _ H2).
  - by rewrite (emitted_DateID _ _ _ H1), (emitted_DateID _ _ _ H2).
  - by rewrite (emitted_LocationID _ _ _ H1), (emitted_LocationID _ _ _ H2).
  - by rewrite (emitted_VehiclesInvolved _ _ _ H1), (emitted_VehiclesInvolved _ _ _ H2).
  - by rewrite (emitted_SeverityScore _ _ _ H1), (emitted_SeverityScore _ _ _ H2).
  - rewrite Hloc1 in Hloc2. injection Hloc2 as <-.
    rewrite Ht1 in Ht2. injection Ht2 as <-.
    destruct (decide (matching_conditions road_conditions_df loc1 = [])) as [Hm|Hm].
    + right. exists loc1. split; [|by apply matching_conditions_nil_inv].
      apply grouped_accidents_row in Hrow as (_ & Hl & _).
      by rewrite (emitted_AccidentID _ _ _ H1), <- Hl.
    + left. apply (road_condition_id_matched _ _ _ _ _ _ ga2 Hm) in Hrc1.
      rewrite Hrc1 in Hrc2. by injection Hrc2.
Qed.

(** ** A batch from which no fact row is built *)



(** ** The theorems above on a concrete batch *)

Lemma fact_accidents_sorted_witness :
  ∃ engine',
    StronglySorted Z.lt (f_AccidentID <$> Fact_Accidents engine') ∧
    f_AccidentID <$> Fact_Accidents engine' = [3; 5].
Proof.
  pose proof (fact_accidents_sorted unordered_accidents
    (dim_location_df unordered_accidents) (dim_date_df unordered_accidents)
    readings_at_A empty_engine fixed_outcomes _ _ eq_refl) as H.
  eexists. split; [exact H|]. vm_compute. reflexivity.
Defined.

Lemma fact_accidents_ids_witness :
  ∃ engine',
    f_AccidentID <$> Fact_Accidents engine' = [3; 5] ∧
    (3 ∈ f_AccidentID <$> Fact_Accidents engine' ↔
     (∃ a, a ∈ unordered_accidents ∧ AccidentID a = Some 3 ∧ is_Some (ReportedAt a)) ∧
     (∃ a, a ∈ unordered_accidents ∧ AccidentID a = Some 3 ∧ is_Some (Location a))).
Proof.
  pose proof (fact_accidents_ids unordered_accidents
    (dim_location_df unordered_accidents) (dim_date_df unordered_accidents)
    readings_at_A empty_engine fixed_outcomes _ _ eq_refl 3) as H.
  eexists. split; [|exact H]. vm_compute. reflexivity.
Defined.

Lemma fact_accidents_first_valid_fields_witness :
  ∃ engine',
    Forall
      (λ fact,
         let records :=
           filter (λ a, AccidentID a = Some (f_AccidentID fact)) unordered_accidents in
         f_VehiclesInvolved fact = pd.first_valid (VehiclesInvolved <$> records) ∧
         f_SeverityScore fact
           = dict_get severity_map (pd.first_valid (Severity <$> records)) 1)
      (Fact_Accidents engine') ∧
    (λ fact, (f_VehiclesInvolved fact, f_SeverityScore fact))
      <$> Fact_Accidents engine' = [(Some 4, 3); (Some 2, 2)].
Proof.
  pose proof (fact_accidents_first_valid_fields unordered_accidents
    (dim_location_df unordered_accidents) (dim_date_df unordered_accidents)
    readings_at_A empty_engine fixed_outcomes _ _ eq_refl) as H.
  eexists. split; [exact H|]. vm_compute. reflexivity.
Defined.

Lemma fact_accidents_keys_resolved_witness :
  ∃ engine',
    Forall
      (λ fact, ∃ a d l,
         first_occurrence unordered_accidents (f_AccidentID fact) = Some a ∧
         d ∈ dim_date_df unordered_accidents ∧ Date d = dt_date <$> ReportedAt a ∧
         f_DateID fact = Some (DateID d) ∧
         l ∈ dim_location_df unordered_accidents ∧ LocationName l = Location a ∧
         f_LocationID fact = Some (LocationID l))
      (Fact_Accidents engine') ∧
    (λ fact, (f_DateID fact, f_LocationID fact))
      <$> Fact_Accidents engine' = [(Some 1, Some 2); (Some 1, Some 1)].
Proof.
  pose proof (fact_accidents_keys_resolved unordered_accidents
    readings_at_A empty_engine fixed_outcomes _ _ eq_refl) as H.
  eexists. split; [exact H|]. vm_compute. reflexivity.
Defined.


Lemma populate_fact_accidents_without_readings_witness :
  Forall
    (λ a, ∀ accident_location,
       Location a = Some accident_location →
       Forall (λ c, rc_Location c ≠ Some accident_location) [reading 1 "D" noon])
    unordered_accidents ∧
  ∃ engine' g',
    populate_fact_accidents unordered_accidents
      (dim_location_df unordered_accidents) (dim_date_df unordered_accidents)
      [reading 1 "D" noon] empty_engine fixed_outcomes = Ok (engine', g') ∧
    length (Fact_Accidents engine') = 2%nat ∧
    outcomes g' = outcomes fixed_outcomes ∧
    drawn g' = (drawn fixed_outcomes + 2 * length (Fact_Accidents engine'))%nat ∧
    Forall (λ fact, ∃ r, f_RoadConditionID fact = Some r ∧ 1 ≤ r ≤ 100)
      (Fact_Accidents engine').
Proof.
  assert (Forall
    (λ a, ∀ accident_location,
       Location a = Some accident_location →
       Forall (λ c, rc_Location c ≠ Some accident_location) [reading 1 "D" noon])
    unordered_accidents) as Hno.
  { repeat constructor; simpl in *; congruence. }
  split; [exact Hno|].
  pose proof (populate_fact_accidents_without_readings unordered_accidents
    (dim_location_df unordered_accidents) (dim_date_df unordered_accidents)
    [reading 1 "D" noon] empty_engine fixed_outcomes _ _ Hno eq_refl) as H.
  eexists _, _. split; [reflexivity|]. split; [reflexivity|]. exact H.
Defined.

Lemma populate_fact_accidents_single_location_witness :
  Forall (λ c, rc_Location c = Some "A") readings_at_A ∧
  readings_at_A ≠ [] ∧
  ∃ engine',
    Forall
      (λ fact,
         let records :=
           filter (λ a, AccidentID a = Some (f_AccidentID fact)) unordered_accidents in
         pd.first_valid (Location <$> records) = Some "A" →
         ∃ reported_at c p tc,
           pd.first_valid (ReportedAt <$> records) = Some reported_at ∧
           readings_at_A !! p = Some c ∧ RecordedAt c = Some tc ∧
           f_RoadConditionID fact = ConditionID c ∧
           ∀ q c' t', readings_at_A !! q = Some c' → RecordedAt c' = Some t' →
             Z.abs (tc - reported_at) ≤ Z.abs (t' - reported_at) ∧
             ((q < p)%nat → Z.abs (tc - reported_at) < Z.abs (t' - reported_at)))
      (Fact_Accidents engine') ∧
    (λ fact, (f_AccidentID fact, f_RoadConditionID fact))
      <$> Fact_Accidents engine' = [(3, Some 41); (5, Some 3)].
Proof.
  assert (Forall (λ c, rc_Location c = Some "A") readings_at_A) as Hall
    by (by repeat constructor).
  assert (readings_at_A ≠ []) as Hrows by done.
  split; [exact Hall|]. split; [exact Hrows|].
  pose proof (populate_fact_accidents_single_location unordered_accidents
    (dim_location_df unordered_accidents) (dim_date_df unordered_accidents)
    readings_at_A "A" empty_engine fixed_outcomes _ _ Hall Hrows eq_refl) as H.
  eexists. split; [exact H|]. vm_compute. reflexivity.
Defined.

Lemma convert_timestamps_idempotent_witness :
  (∀ col t, Forall (λ c, c = None ∨ ∃ t', c = Some (Stamp t')) col →
     parse_epoch col (Stamp t) = Some t) ∧
  ∃ df',
    convert_timestamps parse_epoch mixed_sheet "ReportedAt" = Ok df' ∧
    convert_timestamps parse_epoch df' "ReportedAt" = Ok df'.
Proof.
  split; [done|]. eexists. split; [vm_compute; reflexivity|].
  apply (convert_timestamps_idempotent parse_epoch mixed_sheet); [done|].
  vm_compute. reflexivity.
Defined.

Lemma populate_tables_referential_integrity_witness :
  ∃ engine',
    (Dim_Location engine' = dim_location_df unordered_accidents ∧
     Dim_Vehicle engine' = dim_vehicle_df [] ∧
     Dim_RoadCondition engine' = dim_road_condition_df readings_at_A ∧
     Dim_Date engine' = dim_date_df unordered_accidents ∧
     Forall
       (λ fact,
          (∃ d, d ∈ Dim_Date engine' ∧ f_DateID fact = Some (DateID d)) ∧
          (∃ l, l ∈ Dim_Location engine' ∧ f_LocationID fact = Some (LocationID l)))
       (Fact_Accidents engine')) ∧
    length (Fact_Accidents engine') = 2%nat.
Proof.
  pose proof (populate_tables_referential_integrity []
    unordered_accidents readings_at_A empty_engine fixed_outcomes _ _ eq_refl) as H.
  eexists. split; [exact H|]. vm_compute. reflexivity.
Defined.


Lemma populate_tables_rerun_witness :
  ∃ engine1' engine2',
    (Dim_Location engine1' = Dim_Location engine2' ∧
     Dim_Vehicle engine1' = Dim_Vehicle engine2' ∧
     Dim_RoadCondition engine1' = Dim_RoadCondition engine2' ∧
     Dim_Date engine1' = Dim_Date engine2' ∧
     Forall2
       (λ fact1 fact2,
          f_AccidentID fact1 = f_AccidentID fact2 ∧
          f_DateID fact1 = f_DateID fact2 ∧
          f_LocationID fact1 = f_LocationID fact2 ∧
          f_VehiclesInvolved fact1 = f_VehiclesInvolved fact2 ∧
          f_SeverityScore fact1 = f_SeverityScore fact2 ∧
          (f_RoadConditionID fact1 = f_RoadConditionID fact2
           ∨ ∃ accident_location,
               pd.first_valid
                 (Location <$>
                  filter (λ a, AccidentID a = Some (f_AccidentID fact1))
                    unordered_accidents)
               = Some accident_location ∧
               Forall (λ c, rc_Location c ≠ Some accident_location) readings_at_A))
       (Fact_Accidents engine1') (Fact_Accidents engine2')) ∧
    (λ fact, (f_VehicleID fact, f_RoadConditionID fact))
      <$> Fact_Accidents engine1' = [(122, Some 41); (160, Some 3)] ∧
    (λ fact, (f_VehicleID fact, f_RoadConditionID fact))
      <$> Fact_Accidents engine2' = [(63, Some 92); (121, Some 3)].
Proof.
  pose proof (populate_tables_rerun [] unordered_accidents readings_at_A
    empty_engine (to_sql_Dim_Location (dim_location_df accident_at_noon) empty_engine)
    fixed_outcomes other_outcomes _ _ _ _ eq_refl eq_refl) as H.
  eexists _, _. split; [exact H|]. split; vm_compute; reflexivity.
Defined.
